(** * CameraMotionWarmer: the warming scheduler of src/app/utils/CameraMotionWarmer.js

    A shallow embedding of the class [CameraMotionWarmer] and of the part of
    the JavaScript host it talks to (timeouts, [Date.now], [fetch], the
    callback hooks), followed by the properties of the scheduler.

    Modelling conventions.
    - Times and durations are integer milliseconds ([Z]).
    - The host is explicit: the table of outstanding timeouts, the readings
      of the clock, the canvas used by [createDummyImage] and a trace of the
      calls that leave the object (hooks, requests, waits).
    - [warmReplicateAPI] is an [async] function: it runs up to its next
      [await], is suspended, and is resumed by the host with the settled
      value.  Each piece between two [await]s is one function on the world,
      so other methods can run while a call is suspended.
    - Hooks may raise; they do not call back into the object.  A raised
      value is an [Error] with a message.
    - [console.info] output is not modelled. *)

From Stdlib Require Import ZArith String List Bool Lia DecimalString.
From stdpp Require Import base option list gmap strings.
Import ListNotations.

Local Open Scope Z_scope.

(** ** JavaScript values *)

(** A number supplied by a caller: an integer or [NaN]. *)
Inductive js_number :=
| Num (z : Z)
| NaN.

(** Truthiness of a possibly absent ([undefined]) number. *)
Definition truthy (v : option js_number) : bool :=
  match v with
  | Some (Num z) => negb (z =? 0)
  | Some NaN => false
  | None => false
  end.

Inductive js_error :=
| Error (message : string).

Definition message (e : js_error) : string :=
  match e with Error m => m end.

(** Result of a call that may raise, or of a promise that settles. *)
Inductive outcome (A : Type) :=
| Value (a : A)
| Raised (e : js_error).
Arguments Value {A} a.
Arguments Raised {A} e.

(** Rendering of an integer inside a template literal. *)
Definition number_to_string (z : Z) : string :=
  NilZero.string_of_int (Z.to_int z).

(** [s || d] on an optional string: the empty string is falsy. *)
Definition string_or (s : option string) (d : string) : string :=
  match s with
  | Some EmptyString => d
  | Some m => m
  | None => d
  end.

(** ** Data model *)

Definition hook0 := outcome unit.
Definition hook1 := js_error -> outcome unit.

Definition noop0 : hook0 := Value tt.
Definition noop1 : hook1 := fun _ => Value tt.

(** The [options] argument of the constructor; [None] is an absent key. *)
Record Options := {
  opt_cooldownPeriod : option js_number;
  opt_onWarmingStart : option hook0;
  opt_onWarmingComplete : option hook0;
  opt_onWarmingError : option hook1
}.

Record Config := {
  cooldownPeriod : Z;
  onWarmingStart : hook0;
  onWarmingComplete : hook0;
  onWarmingError : hook1
}.

(** A timeout handle as returned by [setTimeout]: a non-zero integer. *)
Definition handle := positive.

(** The fields of the object. *)
Record warmer := {
  isWarming : bool;
  lastWarmingTime : Z;
  lastSuccessfulWarmingTime : Z;
  warmingTimer : option handle;
  config : Config
}.

(** What the HTTP layer returns. *)
Record response := {
  ok : bool;
  status : Z
}.

Record prediction := {
  predictionId : string;
  pstatus : string;
  perror : option string
}.

(** Where a call of [warmReplicateAPI] is suspended. *)
Inductive susp :=
| AwaitCreate                               (* line 109 *)
| AwaitCreateJson                           (* line 125 *)
| AwaitSleep (id : string)                  (* line 137 *)
| AwaitStatus (id : string)                 (* line 140 *)
| AwaitStatusJson (id : string).            (* line 142 *)

(** How a call of [warmReplicateAPI] ends. *)
Inductive exit_path :=
| ExitGuard                                 (* line 96 *)
| ExitStartRaised (e : js_error)            (* line 102 raised, before [try] *)
| ExitNotOk                                 (* line 122 *)
| ExitSucceeded                             (* line 155 *)
| ExitFailed                                (* line 158 *)
| ExitCaught (error : js_error)             (* line 165 returned *)
| ExitCatchRaised (error e : js_error).     (* line 165 raised *)

Inductive progress :=
| Suspend (k : susp)
| Return (p : exit_path).

(** Calls that leave the object, in the order they happen.  [Invoke] marks
    an entry into [warmReplicateAPI]; it is bookkeeping, the others are
    calls made by the code. *)
Inductive event :=
| Invoke
| OnStart
| OnComplete
| OnError (e : js_error)
| PostWarm (source target : string)
| Wait (ms : Z)
| GetStatus (id : string).

(** The object together with its host. *)
Record world := {
  this : warmer;
  timers : gmap handle Z;          (* outstanding delayed fires: handle, delay *)
  next_handle : handle;
  clock : nat -> Z;                (* the k-th reading of Date.now() *)
  reads : nat;
  canvas : outcome string;         (* what createDummyImage meets in the DOM *)
  trace : list event;
  inflight : list susp             (* suspended calls of warmReplicateAPI *)
}.

(** ** Field updates *)

Definition set_isWarming (b : bool) (o : warmer) : warmer :=
  {| isWarming := b;
     lastWarmingTime := lastWarmingTime o;
     lastSuccessfulWarmingTime := lastSuccessfulWarmingTime o;
     warmingTimer := warmingTimer o;
     config := config o |}.

Definition set_lastWarmingTime (t : Z) (o : warmer) : warmer :=
  {| isWarming := isWarming o;
     lastWarmingTime := t;
     lastSuccessfulWarmingTime := lastSuccessfulWarmingTime o;
     warmingTimer := warmingTimer o;
     config := config o |}.

Definition set_lastSuccessfulWarmingTime (t : Z) (o : warmer) : warmer :=
  {| isWarming := isWarming o;
     lastWarmingTime := lastWarmingTime o;
     lastSuccessfulWarmingTime := t;
     warmingTimer := warmingTimer o;
     config := config o |}.

Definition set_warmingTimer (h : option handle) (o : warmer) : warmer :=
  {| isWarming := isWarming o;
     lastWarmingTime := lastWarmingTime o;
     lastSuccessfulWarmingTime := lastSuccessfulWarmingTime o;
     warmingTimer := h;
     config := config o |}.

Definition set_config (c : Config) (o : warmer) : warmer :=
  {| isWarming := isWarming o;
     lastWarmingTime := lastWarmingTime o;
     lastSuccessfulWarmingTime := lastSuccessfulWarmingTime o;
     warmingTimer := warmingTimer o;
     config := c |}.

Definition update (f : warmer -> warmer) (w : world) : world :=
  {| this := f (this w);
     timers := timers w;
     next_handle := next_handle w;
     clock := clock w;
     reads := reads w;
     canvas := canvas w;
     trace := trace w;
     inflight := inflight w |}.

Definition set_timers (m : gmap handle Z) (n : handle) (w : world) : world :=
  {| this := this w;
     timers := m;
     next_handle := n;
     clock := clock w;
     reads := reads w;
     canvas := canvas w;
     trace := trace w;
     inflight := inflight w |}.

Definition set_reads (n : nat) (w : world) : world :=
  {| this := this w;
     timers := timers w;
     next_handle := next_handle w;
     clock := clock w;
     reads := n;
     canvas := canvas w;
     trace := trace w;
     inflight := inflight w |}.

Definition emit (e : event) (w : world) : world :=
  {| this := this w;
     timers := timers w;
     next_handle := next_handle w;
     clock := clock w;
     reads := reads w;
     canvas := canvas w;
     trace := trace w ++ [e];
     inflight := inflight w |}.

Definition set_inflight (l : list susp) (w : world) : world :=
  {| this := this w;
     timers := timers w;
     next_handle := next_handle w;
     clock := clock w;
     reads := reads w;
     canvas := canvas w;
     trace := trace w;
     inflight := l |}.

(** ** Host primitives *)

(** [Date.now()]: the next reading of the clock. *)
Definition Date_now (w : world) : Z * world :=
  (clock w (reads w), set_reads (S (reads w)) w).

(** The reading the next call of [Date.now()] returns. *)
Definition now_of (w : world) : Z := clock w (reads w).

(** [setTimeout(callback, delay)] for the callback of lines 70-73. *)
Definition setTimeout (delay : Z) (w : world) : handle * world :=
  let h := next_handle w in
  (h, set_timers (<[h := delay]> (timers w)) (Pos.succ h) w).

Definition clearTimeout (h : handle) (w : world) : world :=
  set_timers (delete h (timers w)) (next_handle w) w.

(** ** Constructor (lines 6-23) *)

Definition cooldown_or (v : option js_number) (d : Z) : Z :=
  match v with
  | Some (Num z) => if truthy v then z else d
  | _ => d
  end.

Definition constructor (options : Options) : warmer :=
  {| isWarming := false;
     lastWarmingTime := 0;
     lastSuccessfulWarmingTime := 0;
     warmingTimer := None;
     config :=
       {| cooldownPeriod := cooldown_or (opt_cooldownPeriod options) 10000;
          onWarmingStart := default noop0 (opt_onWarmingStart options);
          onWarmingComplete := default noop0 (opt_onWarmingComplete options);
          onWarmingError := default noop1 (opt_onWarmingError options) |} |}.

(** [new CameraMotionWarmer(options)] in a host with no timeout pending. *)
Definition boot (options : Options) (clk : nat -> Z) (cv : outcome string) : world :=
  {| this := constructor options;
     timers := ∅;
     next_handle := 1%positive;
     clock := clk;
     reads := 0%nat;
     canvas := cv;
     trace := [];
     inflight := [] |}.

(** ** Code inside [try]: a state and exception monad over the world *)

Definition Try (A : Type) : Type := world -> outcome A * world.

Definition ret {A} (a : A) : Try A := fun w => (Value a, w).

Definition bind {A B} (m : Try A) (f : A -> Try B) : Try B :=
  fun w =>
    match m w with
    | (Value a, w') => f a w'
    | (Raised e, w') => (Raised e, w')
    end.

Definition throw {A} (e : js_error) : Try A := fun w => (Raised e, w).

Definition modify (f : world -> world) : Try unit := fun w => (Value tt, f w).

(** [await p] once [p] has settled as [r]. *)
Definition settle {A} (r : outcome A) : Try A := fun w => (r, w).

Definition read_clock : Try Z :=
  fun w => let (t, w') := Date_now w in (Value t, w').

Notation "x <-- m ;; k" := (bind m (fun x => k))
  (at level 100, m at next level, right associativity).
Notation "m ;;; k" := (bind m (fun _ => k))
  (at level 100, right associativity).

(** Calls of the hooks, read from [this.config] at the time of the call. *)
Definition call_onWarmingStart : Try unit :=
  fun w => (onWarmingStart (config (this w)), emit OnStart w).

Definition call_onWarmingComplete : Try unit :=
  fun w => (onWarmingComplete (config (this w)), emit OnComplete w).

Definition call_onWarmingError (e : js_error) : Try unit :=
  fun w => (onWarmingError (config (this w)) e, emit (OnError e) w).

(** [createDummyImage()] (lines 175-193): the data URL of the canvas, or
    whatever the DOM raised. *)
Definition createDummyImage : Try string := fun w => (canvas w, w).

(** ** warmReplicateAPI (lines 94-169) *)

(** [finally] block, line 167. *)
Definition finally_block (w : world) : world := update (set_isWarming false) w.

(** [catch] block, lines 161-165. *)
Definition catch_block (error : js_error) : Try unit :=
  t <-- read_clock ;;
  modify (update (set_lastWarmingTime t)) ;;;
  call_onWarmingError error.

(** A piece of the [try] body, run up to the next [await] or to the end of
    the function, with the [catch] and [finally] of lines 161-168 around it. *)
Definition try_region (body : Try progress) (w : world) : progress * world :=
  match body w with
  | (Value (Suspend k), w') => (Suspend k, w')
  | (Value (Return p), w') => (Return p, finally_block w')
  | (Raised error, w') =>
      match catch_block error w' with
      | (Value _, w'') => (Return (ExitCaught error), finally_block w'')
      | (Raised e, w'') => (Return (ExitCatchRaised error e), finally_block w'')
      end
  end.

(** Lines 106-118: up to the first [await]. *)
Definition request_body : Try progress :=
  dummyImage <-- createDummyImage ;;
  modify (emit (PostWarm dummyImage "/gifs/thumbs_up.gif")) ;;;
  ret (Suspend AwaitCreate).

(** Condition of the loop of line 135. *)
Definition pending (p : prediction) : bool :=
  negb (String.eqb (pstatus p) "succeeded") && negb (String.eqb (pstatus p) "failed").

(** Lines 148-159: after the loop. *)
Definition conclude (finalPrediction : prediction) : Try progress :=
  t <-- read_clock ;;
  modify (update (set_lastWarmingTime t)) ;;;
  if String.eqb (pstatus finalPrediction) "succeeded" then
    t' <-- read_clock ;;
    modify (update (set_lastSuccessfulWarmingTime t')) ;;;
    call_onWarmingComplete ;;;
    ret (Return ExitSucceeded)
  else
    call_onWarmingError
      (Error ("Warming prediction failed: "
              +:+ string_or (perror finalPrediction) "Unknown error")) ;;;
    ret (Return ExitFailed).

(** Line 135 with [finalPrediction] in hand: wait two seconds, or leave the
    loop. *)
Definition loop_head (id : string) (finalPrediction : prediction) : Try progress :=
  if pending finalPrediction then
    modify (emit (Wait 2000)) ;;;
    ret (Suspend (AwaitSleep id))
  else conclude finalPrediction.

(** Lines 109-123, resumed with the settled creation request. *)
Definition after_create (r : outcome response) : Try progress :=
  response <-- settle r ;;
  if negb (ok response) then
    call_onWarmingError
      (Error ("Warming failed: " +:+ number_to_string (status response))) ;;;
    ret (Return ExitNotOk)
  else ret (Suspend AwaitCreateJson).

(** Lines 125-135, resumed with the parsed body. *)
Definition after_create_json (r : outcome prediction) : Try progress :=
  prediction <-- settle r ;;
  loop_head (predictionId prediction) prediction.

(** Lines 137-140, resumed when the two seconds have passed. *)
Definition after_sleep (id : string) : Try progress :=
  modify (emit (GetStatus id)) ;;;
  ret (Suspend (AwaitStatus id)).

(** Lines 140-145, resumed with the settled status request. *)
Definition after_status (id : string) (r : outcome response) : Try progress :=
  statusResponse <-- settle r ;;
  if ok statusResponse then ret (Suspend (AwaitStatusJson id))
  else throw (Error "Failed to check warming prediction status").

(** Lines 142 and 135, resumed with the parsed status. *)
Definition after_status_json (id : string) (r : outcome prediction) : Try progress :=
  finalPrediction <-- settle r ;;
  loop_head id finalPrediction.

(** Lines 94-109: the call itself, up to its first [await]. *)
Definition warmReplicateAPI (w : world) : progress * world :=
  let w := emit Invoke w in
  if isWarming (this w) then (Return ExitGuard, w)
  else
    let w := update (set_isWarming true) w in
    match call_onWarmingStart w with
    | (Raised e, w) => (Return (ExitStartRaised e), w)
    | (Value _, w) => try_region request_body w
    end.

(** What the host hands to a suspended call. *)
Inductive wake :=
| Elapsed
| GotResponse (r : outcome response)
| GotJson (r : outcome prediction).

(** Resuming a suspended call; [None] when the value handed over is not
    what the call awaits. *)
Definition resume (k : susp) (i : wake) : option (world -> progress * world) :=
  match k, i with
  | AwaitCreate, GotResponse r => Some (try_region (after_create r))
  | AwaitCreateJson, GotJson r => Some (try_region (after_create_json r))
  | AwaitSleep id, Elapsed => Some (try_region (after_sleep id))
  | AwaitStatus id, GotResponse r => Some (try_region (after_status id r))
  | AwaitStatusJson id, GotJson r => Some (try_region (after_status_json id r))
  | _, _ => None
  end.

(** One call followed from entry to exit with nothing else running in
    between.  [None]: the values ran out while the call was suspended, or a
    value did not fit. *)
Fixpoint drive (ws : list wake) (st : progress * world) : option (exit_path * world) :=
  match st with
  | (Return p, w) => Some (p, w)
  | (Suspend k, w) =>
      match ws with
      | [] => None
      | i :: ws' =>
          match resume k i with
          | Some f => drive ws' (f w)
          | None => None
          end
      end
  end.

Definition run (ws : list wake) (w : world) : option (exit_path * world) :=
  drive ws (warmReplicateAPI w).

(** [this.warmReplicateAPI()] as the class calls it, the promise dropped:
    a suspended call stays with the host. *)
Definition spawn (st : progress * world) : world :=
  match st with
  | (Suspend k, w) => set_inflight (inflight w ++ [k]) w
  | (Return _, w) => w
  end.

Definition call_warmReplicateAPI (w : world) : world := spawn (warmReplicateAPI w).

(** ** The other methods *)

(** Lines 30-35. *)
Definition stopDetection (w : world) : world :=
  match warmingTimer (this w) with
  | Some h => update (set_warmingTimer None) (clearTimeout h w)
  | None => w
  end.

(** Lines 51-78. *)
Definition triggerWarmCall (w : world) : world :=
  if isWarming (this w) then w
  else
    let w :=
      match warmingTimer (this w) with
      | Some h => clearTimeout h w
      | None => w
      end in
    let (now, w) := Date_now w in
    let timeSinceLastSuccessfulWarming := now - lastSuccessfulWarmingTime (this w) in
    let remainingCooldown :=
      Z.max 0 (cooldownPeriod (config (this w)) - timeSinceLastSuccessfulWarming) in
    if 0 <? remainingCooldown then
      let (h, w) := setTimeout remainingCooldown w in
      update (set_warmingTimer (Some h)) w
    else call_warmReplicateAPI w.

(** Lines 44-46. *)
Definition handleUserInteraction (w : world) : world := triggerWarmCall w.

(** Lines 70-73: the callback of the delayed fire. *)
Definition timer_callback (w : world) : world :=
  update (set_warmingTimer None) (call_warmReplicateAPI w).

(** The host fires timeout [h]: it leaves the table and its callback runs. *)
Definition fire (h : handle) (w : world) : option world :=
  match timers w !! h with
  | Some _ => Some (timer_callback (clearTimeout h w))
  | None => None
  end.

(** Lines 84-89. *)
Definition shouldWarmAPI (w : world) : bool * world :=
  let (now, w) := Date_now w in
  let timeSinceLastSuccessfulWarming := now - lastSuccessfulWarmingTime (this w) in
  (negb (isWarming (this w))
   && (cooldownPeriod (config (this w)) <? timeSinceLastSuccessfulWarming), w).

(** Lines 198-201. *)
Definition freezeWarming (w : world) : world := update (set_isWarming true) w.

(** Lines 206-210. *)
Definition resetWarmingCooldown (w : world) : world :=
  let w := update (set_isWarming false) w in
  let (now, w) := Date_now w in
  update (set_lastSuccessfulWarmingTime now) w.

(** Lines 216-218, for a partial configuration with numeric cooldown. *)
Record PartialConfig := {
  new_cooldownPeriod : option Z;
  new_onWarmingStart : option hook0;
  new_onWarmingComplete : option hook0;
  new_onWarmingError : option hook1
}.

Definition updateConfig (newConfig : PartialConfig) (w : world) : world :=
  let c := config (this w) in
  update (set_config
    {| cooldownPeriod := default (cooldownPeriod c) (new_cooldownPeriod newConfig);
       onWarmingStart := default (onWarmingStart c) (new_onWarmingStart newConfig);
       onWarmingComplete := default (onWarmingComplete c) (new_onWarmingComplete newConfig);
       onWarmingError := default (onWarmingError c) (new_onWarmingError newConfig) |}) w.

(** Lines 224-232. *)
Record Status := {
  st_isWarming : bool;
  st_lastWarmingTime : Z;
  timeSinceLastWarming : Z;
  timeSinceLastSuccessfulWarming : Z;
  canWarm : bool
}.

Definition getStatus (w : world) : Status * world :=
  let (t1, w1) := Date_now w in
  let (t2, w2) := Date_now w1 in
  let (can, w3) := shouldWarmAPI w2 in
  ({| st_isWarming := isWarming (this w);
      st_lastWarmingTime := lastWarmingTime (this w);
      timeSinceLastWarming := t1 - lastWarmingTime (this w);
      timeSinceLastSuccessfulWarming := t2 - lastSuccessfulWarmingTime (this w);
      canWarm := can |}, w3).

(** Lines 237-239. *)
Definition destroy (w : world) : world := stopDetection w.

(** ** Observations used in the statements *)

Definition is_invoke (e : event) : bool :=
  match e with Invoke => true | _ => false end.

Definition is_error (e : event) : bool :=
  match e with OnError _ => true | _ => false end.

Definition is_poll (e : event) : bool :=
  match e with Wait _ | GetStatus _ => true | _ => false end.

Fixpoint count (f : event -> bool) (l : list event) : nat :=
  match l with
  | [] => 0%nat
  | e :: l' => if f e then S (count f l') else count f l'
  end.

(** Between [w] and [w'] the executor was entered once and got past its
    entry guard: the start hook was called. *)
Definition fired (w w' : world) : Prop :=
  exists rest,
    trace w' = trace w ++ Invoke :: OnStart :: rest /\ count is_invoke rest = 0%nat.

(** The cooldown left at the next reading of the clock (lines 64-66). *)
Definition remaining (w : world) : Z :=
  Z.max 0 (cooldownPeriod (config (this w))
           - (now_of w - lastSuccessfulWarmingTime (this w))).

(** Every outstanding delayed fire is the one [this.warmingTimer] names, and
    handles handed out so far are below the next one. *)
Definition tidy (w : world) : Prop :=
  (forall h d, timers w !! h = Some d -> warmingTimer (this w) = Some h)
  /\ (forall h, warmingTimer (this w) = Some h -> (h < next_handle w)%positive).

(** [n] trigger invocations in a row. *)
Definition triggers (n : nat) (w : world) : world := Nat.iter n triggerWarmCall w.

(** ** What the host and the callers may do, one step at a time *)

Inductive step : world -> world -> Prop :=
| step_trigger w :
    step w (handleUserInteraction w)
| step_fire w h w' :
    fire h w = Some w' -> step w w'
| step_stop w :
    step w (destroy w)
| step_freeze w :
    step w (freezeWarming w)
| step_reset w :
    step w (resetWarmingCooldown w)
| step_config w c :
    step w (updateConfig c w)
| step_status w :
    step w (snd (getStatus w))
| step_should w :
    step w (snd (shouldWarmAPI w))
| step_call w :
    step w (call_warmReplicateAPI w)
| step_resume w l1 k l2 i f :
    inflight w = l1 ++ k :: l2 ->
    resume k i = Some f ->
    step w (spawn (f (set_inflight (l1 ++ l2) w))).

Definition reachable (w : world) : Prop :=
  exists options clk cv, rtc step (boot options clk cv) w.

(** ** Scripts: what the network answers to one call *)

Record round := {
  status_response : outcome response;
  status_body : outcome prediction
}.

Record script := {
  create_response : outcome response;
  create_body : outcome prediction;
  rounds : list round
}.

Definition round_wakes (r : round) : list wake :=
  [Elapsed; GotResponse (status_response r); GotJson (status_body r)].

Definition wakes (s : script) : list wake :=
  GotResponse (create_response s) :: GotJson (create_body s)
  :: flat_map round_wakes (rounds s).

(** The answer ends the call: a rejection, a non-OK status, or a body in a
    terminal state. *)
Definition decisive (r : outcome response) (b : outcome prediction) : bool :=
  match r with
  | Raised _ => true
  | Value resp =>
      if ok resp then
        match b with
        | Raised _ => true
        | Value p => negb (pending p)
        end
      else true
  end.

Definition settles (s : script) : bool :=
  decisive (create_response s) (create_body s)
  || existsb (fun r => decisive (status_response r) (status_body r)) (rounds s).

(** ** Predicates used by the proofs *)

(** The pending timer cancelled, as lines 59-61 leave the host. *)
Definition cancelled (w : world) : gmap handle Z :=
  match warmingTimer (this w) with
  | Some h => delete h (timers w)
  | None => timers w
  end.

(** [w'] has the timeout table, the handle counter and [this.warmingTimer]
    of [w]. *)
Definition same_timers (w w' : world) : Prop :=
  timers w' = timers w /\ next_handle w' = next_handle w
  /\ warmingTimer (this w') = warmingTimer (this w).

(** What a piece that ends the call leaves behind, relative to the world
    [w] it was resumed in. *)
Definition exit_spec (w : world) (p : exit_path) (w' : world) : Prop :=
  isWarming (this w') = false
  /\ config (this w') = config (this w)
  /\ warmingTimer (this w') = warmingTimer (this w)
  /\ clock w' = clock w
  /\ match p with
     | ExitGuard => False
     | ExitStartRaised _ => False
     | ExitNotOk =>
         lastWarmingTime (this w') = lastWarmingTime (this w)
         /\ lastSuccessfulWarmingTime (this w') = lastSuccessfulWarmingTime (this w)
         /\ reads w' = reads w
     | ExitSucceeded =>
         lastWarmingTime (this w') = clock w (reads w)
         /\ lastSuccessfulWarmingTime (this w') = clock w (S (reads w))
         /\ reads w' = S (S (reads w))
     | ExitFailed =>
         lastWarmingTime (this w') = clock w (reads w)
         /\ lastSuccessfulWarmingTime (this w') = lastSuccessfulWarmingTime (this w)
         /\ reads w' = S (reads w)
     | ExitCaught _ | ExitCatchRaised _ _ =>
         exists n, reads w' = S n /\ (reads w <= n)%nat
           /\ lastWarmingTime (this w') = clock w n
           /\ (onWarmingComplete (config (this w)) = Value tt ->
               lastSuccessfulWarmingTime (this w')
               = lastSuccessfulWarmingTime (this w))
     end.

(** A piece that suspends again has not touched the object or the clock. *)
Definition suspend_spec (w w' : world) : Prop :=
  this w' = this w /\ clock w' = clock w /\ reads w' = reads w.

(** [w] and [w0] agree on what [exit_spec] reads. *)
Definition agree (w0 w : world) : Prop :=
  config (this w) = config (this w0)
  /\ warmingTimer (this w) = warmingTimer (this w0)
  /\ lastWarmingTime (this w) = lastWarmingTime (this w0)
  /\ lastSuccessfulWarmingTime (this w) = lastSuccessfulWarmingTime (this w0)
  /\ clock w = clock w0
  /\ reads w = reads w0.

(** ** Sample inputs *)

Definition default_options : Options :=
  {| opt_cooldownPeriod := None;
     opt_onWarmingStart := None;
     opt_onWarmingComplete := None;
     opt_onWarmingError := None |}.

Definition with_cooldown (v : js_number) : Options :=
  {| opt_cooldownPeriod := Some v;
     opt_onWarmingStart := None;
     opt_onWarmingComplete := None;
     opt_onWarmingError := None |}.

(** A time of day, in ms since the epoch. *)
Definition t_0 : Z := 1700000000000.

(** A clock whose readings are [t0] plus the listed offsets, the last one
    repeated. *)
Definition clock_at (t0 : Z) (offsets : list Z) : nat -> Z :=
  let readings := List.map (Z.add t0) offsets in
  fun n => List.nth n readings (List.last readings t0).

Definition data_url : string := "data:image/jpeg;base64,/9j/4AAQ".

(** A real call has just completed at [t_0]; the clock is next read 3 s,
    5 s and 11 s later. *)
Definition w_cooling : world :=
  resetWarmingCooldown
    (boot default_options (clock_at t_0 [0; 3000; 5000; 11000]) (Value data_url)).

(** A fresh object: its cooldown is over. *)
Definition w_ready : world :=
  boot default_options (clock_at t_0 [0; 1; 2; 3]) (Value data_url).

(** A real call completed at [t_0]; the clock is next read exactly one
    cooldown later. *)
Definition w_boundary : world :=
  resetWarmingCooldown
    (boot default_options (clock_at t_0 [0; 10000]) (Value data_url)).

(** A delayed fire is pending, then the capture pipeline freezes warming. *)
Definition w_frozen : world := freezeWarming (triggerWarmCall w_cooling).

(** A fresh object whose host reads the clock 15 s apart. *)
Definition w_sparse : world :=
  boot default_options (clock_at t_0 [0; 15000; 30000]) (Value data_url).

Definition response_500 : response := {| ok := false; status := 500 |}.
Definition response_200 : response := {| ok := true; status := 200 |}.

Definition prediction_in (s : string) : prediction :=
  {| predictionId := "p1"; pstatus := s; perror := None |}.

(** An object whose error hook raises. *)
Definition w_error_hook_raises : world :=
  boot {| opt_cooldownPeriod := None;
          opt_onWarmingStart := None;
          opt_onWarmingComplete := None;
          opt_onWarmingError := Some (fun _ => Raised (Error "hook failed")) |}
       (clock_at t_0 [0; 1; 2; 3]) (Value data_url).

(** An object whose completion hook raises. *)
Definition w_complete_hook_raises : world :=
  boot {| opt_cooldownPeriod := None;
          opt_onWarmingStart := None;
          opt_onWarmingComplete := Some (Raised (Error "hook failed"));
          opt_onWarmingError := None |}
       (clock_at t_0 [0; 1; 2; 3]) (Value data_url).

(** The world a call leaves behind, and what the statements look at in it:
    exit path, [isWarming], [lastWarmingTime], [lastSuccessfulWarmingTime]
    and the trace. *)
Definition world_after (ws : list wake) (w : world) : world :=
  match run ws w with
  | Some (_, w') => w'
  | None => w
  end.

Definition summary (r : option (exit_path * world))
  : option (exit_path * bool * Z * Z * list event) :=
  match r with
  | Some (p, w') =>
      Some (p, isWarming (this w'), lastWarmingTime (this w'),
            lastSuccessfulWarmingTime (this w'), trace w')
  | None => None
  end.

(** The network answers of a call whose prediction is done at once. *)
Definition answers_succeeded : list wake :=
  [GotResponse (Value response_200); GotJson (Value (prediction_in "succeeded"))].

(** ** Predicates of the further properties *)



(** The instant the cooldown ends. *)
Definition cooldown_end (w : world) : Z :=
  lastSuccessfulWarmingTime (this w) + cooldownPeriod (config (this w)).






(** Every status request in [delta] asks for [id]. *)
Definition polls_only (id : string) (delta : list event) : Prop :=
  forall id', In (GetStatus id') delta -> id' = id.

(** A reconfiguration that sets the cooldown to 0 and keeps the hooks. *)
Definition zero_cooldown : PartialConfig :=
  {| new_cooldownPeriod := Some 0;
     new_onWarmingStart := None;
     new_onWarmingComplete := None;
     new_onWarmingError := None |}.






(** A host whose canvas gives no drawing context. *)
Definition w_no_canvas : world :=
  boot default_options (clock_at t_0 [0; 1; 2; 3])
       (Raised (Error "Cannot read properties of null")).

(** What the promise of a call is rejected with, if it is. *)
Definition rejection (p : exit_path) : option js_error :=
  match p with
  | ExitStartRaised e => Some e
  | ExitCatchRaised _ e => Some e
  | _ => None
  end.

(** The exit is a rejection only with what a hook of [c] raised. *)
Definition raised_by_hook (c : Config) (p : exit_path) : Prop :=
  match p with
  | ExitStartRaised e => onWarmingStart c = Raised e
  | ExitCatchRaised error e => onWarmingError c error = Raised e
  | _ => True
  end.

(** * Properties *)

(** ** Proof tools *)

Lemma count_app f l1 l2 : count f (l1 ++ l2) = (count f l1 + count f l2)%nat.
Proof.
  induction l1 as [|e l1 IH]; simpl; [reflexivity|].
  destruct (f e); rewrite IH; reflexivity.
Qed.

Ltac unfold_try :=
  unfold try_region, request_body, after_create, after_create_json,
    after_sleep, after_status, after_status_json, loop_head, conclude,
    catch_block, finally_block, bind, ret, throw, modify, settle, read_clock,
    call_onWarmingStart, call_onWarmingComplete, call_onWarmingError,
    createDummyImage, Date_now in *.

Ltac split_piece :=
  repeat (simpl;
    match goal with
    | |- context [match ?x with _ => _ end] => is_var x; destruct x
    | |- context [onWarmingError ?c ?e] => destruct (onWarmingError c e) eqn:?
    | |- context [onWarmingComplete ?c] => destruct (onWarmingComplete c) eqn:?
    | |- context [onWarmingStart ?c] => destruct (onWarmingStart c) eqn:?
    | |- context [canvas ?w] => destruct (canvas w) eqn:?
    | |- context [ok ?r] => destruct (ok r) eqn:?
    | |- context [pending ?p] => destruct (pending p) eqn:?
    | |- context [String.eqb ?a ?b] => destruct (String.eqb a b) eqn:?
    end); simpl.


(** A call that has returned takes no further value. *)
Lemma drive_return ws p w : drive ws (Return p, w) = Some (p, w).
Proof. destruct ws; reflexivity. Qed.

(** Closes the cases in which a piece ends the call. *)
Ltac piece_returns :=
  unfold_try; split_piece; rewrite ?drive_return; eauto.

Lemma spawn_trace st : trace (spawn st) = trace (snd st).
Proof. destruct st as [[k|p] w]; reflexivity. Qed.

Lemma spawn_timers st : timers (spawn st) = timers (snd st).
Proof. destruct st as [[k|p] w]; reflexivity. Qed.

Lemma spawn_this st : this (spawn st) = this (snd st).
Proof. destruct st as [[k|p] w]; reflexivity. Qed.

Lemma spawn_next_handle st : next_handle (spawn st) = next_handle (snd st).
Proof. destruct st as [[k|p] w]; reflexivity. Qed.

(** ** The executor and the timeout table *)

(** The entry of the executor when the flag is down: the start hook is
    called, and nothing after it enters the executor again. *)
Lemma warmReplicateAPI_fired w :
  isWarming (this w) = false ->
  fired w (snd (warmReplicateAPI w)).
Proof.
  intros Hidle. unfold fired, warmReplicateAPI. simpl. rewrite Hidle.
  unfold_try. simpl.
  destruct (onWarmingStart (config (this w))) as [[]|e]; simpl.
  - destruct (canvas w) as [img|e]; simpl.
    + eexists. split; [rewrite <- !app_assoc; reflexivity | reflexivity].
    + destruct (onWarmingError (config (this w)) e); simpl;
        (eexists; split; [rewrite <- !app_assoc; reflexivity | reflexivity]).
  - eexists. split; [rewrite <- !app_assoc; reflexivity | reflexivity].
Qed.

Lemma call_warmReplicateAPI_fired w :
  isWarming (this w) = false ->
  fired w (call_warmReplicateAPI w).
Proof.
  intros Hidle. destruct (warmReplicateAPI_fired w Hidle) as [rest [Ht Hc]].
  exists rest. unfold call_warmReplicateAPI. rewrite spawn_trace. auto.
Qed.

Lemma try_region_same_timers body w :
  (forall w0, same_timers w0 (snd (body w0))) ->
  same_timers w (snd (try_region body w)).
Proof.
  intros Hbody. unfold try_region. specialize (Hbody w).
  destruct (body w) as [[[k|p]|e] w1]; simpl in *; try exact Hbody.
  unfold_try. simpl.
  destruct (onWarmingError (config (this w1)) e); simpl; exact Hbody.
Qed.

Lemma warmReplicateAPI_same_timers w : same_timers w (snd (warmReplicateAPI w)).
Proof.
  unfold warmReplicateAPI. simpl.
  destruct (isWarming (this w)); [repeat split|].
  unfold call_onWarmingStart. simpl.
  destruct (onWarmingStart (config (this w))); [|repeat split].
  match goal with |- same_timers _ (snd (try_region ?b ?x)) =>
    destruct (try_region_same_timers b x) as (H1 & H2 & H3) end.
  - intros w0. unfold_try. destruct (canvas w0); repeat split.
  - repeat split; assumption.
Qed.

Lemma resume_same_timers k i f w :
  resume k i = Some f -> same_timers w (snd (f w)).
Proof.
  intros Hr.
  destruct k, i; simpl in Hr; inversion Hr; subst; clear Hr;
    apply try_region_same_timers; intros w0; unfold_try;
    repeat (match goal with
            | |- context [match ?x with _ => _ end] => destruct x; simpl
            | |- context [if ?x then _ else _] => destruct x; simpl
            end); repeat split.
Qed.

(** ** The trigger gate *)

Lemma remaining_nonneg w : 0 <= remaining w.
Proof. unfold remaining. lia. Qed.

Lemma trigger_busy w : isWarming (this w) = true -> triggerWarmCall w = w.
Proof. intros H. unfold triggerWarmCall. rewrite H. reflexivity. Qed.

Lemma tidy_cancelled w : tidy w -> cancelled w = ∅.
Proof.
  intros [Hone _]. unfold cancelled. apply map_eq. intros h.
  rewrite lookup_empty.
  destruct (warmingTimer (this w)) as [h0|] eqn:Ht.
  - destruct (decide (h0 = h)) as [->|Hne].
    + apply lookup_delete_eq.
    + rewrite lookup_delete_ne by assumption.
      destruct (timers w !! h) as [d|] eqn:Hl; [|reflexivity].
      apply Hone in Hl. congruence.
  - destruct (timers w !! h) as [d|] eqn:Hl; [|reflexivity].
    apply Hone in Hl. congruence.
Qed.

(** The trigger with the flag down, in one equation. *)
Lemma trigger_idle w :
  isWarming (this w) = false ->
  triggerWarmCall w =
    let w1 := set_reads (S (reads w)) (set_timers (cancelled w) (next_handle w) w) in
    if 0 <? remaining w then
      update (set_warmingTimer (Some (next_handle w)))
        (set_timers (<[next_handle w := remaining w]> (cancelled w))
           (Pos.succ (next_handle w)) w1)
    else call_warmReplicateAPI w1.
Proof.
  intros Hidle. unfold triggerWarmCall, remaining, now_of, cancelled.
  rewrite Hidle. destruct w as [o tm nh clk rd cv tr fl]. simpl in *.
  destruct (warmingTimer o); simpl; reflexivity.
Qed.

(** The delayed branch, lines 68-73. *)
Lemma trigger_delayed w :
  isWarming (this w) = false ->
  0 < remaining w ->
  let w' := triggerWarmCall w in
  trace w' = trace w
  /\ inflight w' = inflight w
  /\ isWarming (this w') = false
  /\ lastWarmingTime (this w') = lastWarmingTime (this w)
  /\ lastSuccessfulWarmingTime (this w') = lastSuccessfulWarmingTime (this w)
  /\ config (this w') = config (this w)
  /\ warmingTimer (this w') = Some (next_handle w)
  /\ timers w' = <[next_handle w := remaining w]> (cancelled w)
  /\ next_handle w' = Pos.succ (next_handle w)
  /\ reads w' = S (reads w)
  /\ clock w' = clock w.
Proof.
  intros Hidle Hrem. simpl. rewrite (trigger_idle w Hidle). simpl.
  destruct (Z.ltb_spec 0 (remaining w)); [|lia].
  simpl. rewrite Hidle. repeat split.
Qed.

(** The immediate branch, lines 74-77. *)
Lemma trigger_immediate w :
  isWarming (this w) = false ->
  remaining w = 0 ->
  let w' := triggerWarmCall w in
  fired w w'
  /\ timers w' = cancelled w
  /\ next_handle w' = next_handle w
  /\ warmingTimer (this w') = warmingTimer (this w).
Proof.
  intros Hidle Hrem. simpl. rewrite (trigger_idle w Hidle). simpl.
  rewrite Hrem. simpl.
  match goal with |- context [call_warmReplicateAPI ?x] =>
    pose proof (call_warmReplicateAPI_fired x Hidle) as Hf;
    pose proof (warmReplicateAPI_same_timers x) as (H1 & H2 & H3);
    unfold call_warmReplicateAPI in *;
    rewrite spawn_timers, spawn_next_handle, spawn_this, H1, H2, H3
  end.
  repeat split; assumption.
Qed.

(** Both branches of the trigger for a tidy world. *)
Lemma idle_trigger_branches w :
  isWarming (this w) = false ->
  tidy w ->
  (remaining w = 0 ->
     fired w (triggerWarmCall w) /\ timers (triggerWarmCall w) = ∅)
  /\ (0 < remaining w ->
      warmingTimer (this (triggerWarmCall w)) = Some (next_handle w)
      /\ timers (triggerWarmCall w) = {[ next_handle w := remaining w ]}).
Proof.
  intros Hidle Htidy. split; intros Hrem.
  - destruct (trigger_immediate w Hidle Hrem) as (Hf & Ht & _).
    split; [exact Hf|]. rewrite Ht. apply tidy_cancelled, Htidy.
  - destruct (trigger_delayed w Hidle Hrem)
      as (_ & _ & _ & _ & _ & _ & Hwt & Htm & _).
    rewrite (tidy_cancelled w Htidy) in Htm. split; assumption.
Qed.

(** The callback of a delayed fire, run by the host when [h] is due. *)
Lemma fire_pending w h d :
  timers w !! h = Some d ->
  exists w',
    fire h w = Some w'
    /\ timers w' = delete h (timers w)
    /\ warmingTimer (this w') = None
    /\ (isWarming (this w) = false -> fired w w').
Proof.
  intros Hl. unfold fire. rewrite Hl. eexists. split; [reflexivity|].
  unfold timer_callback, call_warmReplicateAPI. simpl.
  rewrite spawn_timers.
  destruct (warmReplicateAPI_same_timers (clearTimeout h w)) as (H1 & _ & _).
  rewrite H1. simpl. repeat split.
  intros Hidle.
  destruct (warmReplicateAPI_fired (clearTimeout h w) Hidle) as [rest [Ht Hc]].
  exists rest. simpl. rewrite spawn_trace. auto.
Qed.

(** ** At most one delayed fire *)

Lemma boot_tidy options clk cv : tidy (boot options clk cv).
Proof.
  split; simpl.
  - intros h d H. rewrite lookup_empty in H. discriminate.
  - intros h H. discriminate.
Qed.

Lemma same_timers_tidy w w' : same_timers w w' -> tidy w -> tidy w'.
Proof.
  intros (Ht & Hn & Hw) [H1 H2]. split.
  - intros h d. rewrite Ht, Hw. apply H1.
  - intros h. rewrite Hw, Hn. apply H2.
Qed.

Lemma spawn_same_timers st w : same_timers w (snd st) -> same_timers w (spawn st).
Proof.
  unfold same_timers. rewrite spawn_timers, spawn_next_handle, spawn_this. auto.
Qed.

Lemma tidy_size w : tidy w -> (size (timers w) <= 1)%nat.
Proof.
  intros Htidy. pose proof (tidy_cancelled w Htidy) as Hc. unfold cancelled in Hc.
  destruct (warmingTimer (this w)) as [h|].
  - destruct (timers w !! h) as [d|] eqn:Hl.
    + rewrite <- (insert_delete_id (timers w) h d Hl), Hc, insert_empty.
      rewrite map_size_singleton. lia.
    + rewrite delete_id in Hc by exact Hl. rewrite Hc, map_size_empty. lia.
  - rewrite Hc, map_size_empty. lia.
Qed.

Lemma trigger_tidy w : tidy w -> tidy (triggerWarmCall w).
Proof.
  intros Htidy. destruct (isWarming (this w)) eqn:Hflag.
  - rewrite trigger_busy by exact Hflag. exact Htidy.
  - pose proof (remaining_nonneg w) as Hnn.
    destruct (Z.eq_dec (remaining w) 0) as [Hz|Hnz].
    + destruct (trigger_immediate w Hflag Hz) as (_ & Ht & Hn & Hw).
      rewrite (tidy_cancelled w Htidy) in Ht. split.
      * intros h d. rewrite Ht, lookup_empty. discriminate.
      * intros h. rewrite Hw, Hn. apply Htidy.
    + destruct (trigger_delayed w Hflag ltac:(lia))
        as (_ & _ & _ & _ & _ & _ & Hwt & Htm & Hnh & _).
      rewrite (tidy_cancelled w Htidy) in Htm. split.
      * intros h d. rewrite Htm, Hwt. intros Hl.
        apply lookup_insert_Some in Hl as [[-> _]|[_ Hl]]; [reflexivity|].
        rewrite lookup_empty in Hl. discriminate.
      * intros h. rewrite Hwt, Hnh. intros [= <-]. lia.
Qed.

Lemma fire_tidy w h w' : fire h w = Some w' -> tidy w -> tidy w'.
Proof.
  intros Hfire Htidy.
  destruct (timers w !! h) as [d|] eqn:Hl;
    [|unfold fire in Hfire; rewrite Hl in Hfire; discriminate].
  destruct (fire_pending w h d Hl) as (w0 & Hfire0 & Htm & Hwt & _).
  rewrite Hfire in Hfire0. injection Hfire0 as <-.
  pose proof (tidy_cancelled w Htidy) as Hc. unfold cancelled in Hc.
  rewrite (proj1 Htidy h d Hl) in Hc. split.
  - intros h' d'. rewrite Htm, Hc, lookup_empty. discriminate.
  - intros h'. rewrite Hwt. discriminate.
Qed.

Lemma stopDetection_tidy w : tidy w -> tidy (stopDetection w).
Proof.
  intros Htidy. pose proof (tidy_cancelled w Htidy) as Hc.
  unfold stopDetection, cancelled in *.
  destruct (warmingTimer (this w)) as [h|]; [|exact Htidy]. split; simpl.
  - intros h' d'. rewrite Hc, lookup_empty. discriminate.
  - discriminate.
Qed.

Lemma step_tidy w w' : step w w' -> tidy w -> tidy w'.
Proof.
  intros Hstep Htidy. destruct Hstep.
  - apply trigger_tidy, Htidy.
  - eapply fire_tidy; eassumption.
  - apply stopDetection_tidy, Htidy.
  - exact Htidy.
  - exact Htidy.
  - exact Htidy.
  - exact Htidy.
  - exact Htidy.
  - eapply same_timers_tidy; [|exact Htidy].
    apply spawn_same_timers, warmReplicateAPI_same_timers.
  - eapply same_timers_tidy; [|exact Htidy].
    apply spawn_same_timers.
    match goal with Hr : resume _ _ = Some _ |- _ =>
      exact (resume_same_timers _ _ _ (set_inflight (l1 ++ l2) w) Hr) end.
Qed.

Lemma reachable_tidy w : reachable w -> tidy w.
Proof.
  intros (options & clk & cv & Hrtc).
  pose proof (boot_tidy options clk cv) as H0.
  induction Hrtc as [|x y z Hstep _ IH]; [exact H0|].
  apply IH. eapply step_tidy; eassumption.
Qed.

Lemma reachable_step w w' : reachable w -> step w w' -> reachable w'.
Proof.
  intros (options & clk & cv & Hrtc) Hstep.
  exists options, clk, cv. eapply rtc_r; eassumption.
Qed.

Lemma reachable_boot options clk cv : reachable (boot options clk cv).
Proof. exists options, clk, cv. apply rtc_refl. Qed.

Lemma w_cooling_reachable : reachable w_cooling.
Proof. eapply reachable_step; [apply reachable_boot|apply step_reset]. Qed.

(** ** One call of the executor, piece by piece *)


Lemma resume_spec k i f w :
  resume k i = Some f ->
  match f w with
  | (Suspend _, w') => suspend_spec w w'
  | (Return p, w') => exit_spec w p w'
  end.
Proof.
  intros Hr. unfold exit_spec, suspend_spec.
  destruct k, i; simpl in Hr; inversion Hr; subst; clear Hr;
    unfold_try; split_piece; repeat split; try congruence;
    try (eexists; split; [reflexivity|split; [lia|split; [reflexivity|congruence]]]).
Qed.

Lemma suspend_agree w0 w w1 : agree w0 w -> suspend_spec w w1 -> agree w0 w1.
Proof.
  intros (Hc & Hw & Hl & Hs & Hk & Hr) (Ht & Hk' & Hr').
  unfold agree. rewrite Ht, Hk', Hr'. repeat split; assumption.
Qed.

Lemma exit_spec_agree w0 w p w' : agree w0 w -> exit_spec w p w' -> exit_spec w0 p w'.
Proof.
  intros (Hc & Hw & Hl & Hs & Hk & Hr) (Hflag & Hc' & Hw' & Hk' & Hp).
  unfold exit_spec. rewrite <- Hc, <- Hw, <- Hl, <- Hs, <- Hk, <- Hr.
  repeat split; assumption.
Qed.

(** A suspended call that is followed to its exit. *)
Lemma drive_spec ws : forall k w0 w p w',
  agree w0 w ->
  drive ws (Suspend k, w) = Some (p, w') ->
  exit_spec w0 p w'.
Proof.
  induction ws as [|i ws IH]; intros k w0 w p w' Hagree Hd; simpl in Hd.
  - discriminate.
  - destruct (resume k i) as [f|] eqn:Hr; [|discriminate].
    pose proof (resume_spec k i f w Hr) as Hspec.
    destruct (f w) as [[k1|p1] w1].
    + eapply IH; [|exact Hd]. eapply suspend_agree; eassumption.
    + rewrite drive_return in Hd. injection Hd as <- <-.
      eapply exit_spec_agree; eassumption.
Qed.

(** The first piece: lines 94-109. *)
Lemma warmReplicateAPI_spec w :
  match warmReplicateAPI w with
  | (Return ExitGuard, w') => isWarming (this w) = true /\ w' = emit Invoke w
  | (Return (ExitStartRaised e), w') =>
      isWarming (this w) = false
      /\ onWarmingStart (config (this w)) = Raised e
      /\ this w' = set_isWarming true (this w)
  | (Return p, w') => isWarming (this w) = false /\ exit_spec w p w'
  | (Suspend k, w') =>
      isWarming (this w) = false /\ agree w w'
      /\ onWarmingStart (config (this w)) = Value tt
  end.
Proof.
  unfold warmReplicateAPI. simpl.
  destruct (isWarming (this w)) eqn:Hflag; [split; reflexivity|].
  unfold exit_spec, agree. unfold_try. split_piece; repeat split; try congruence.
  all: try (repeat match goal with u : unit |- _ => destruct u end; reflexivity).
  all: eexists; split; [reflexivity|split; [lia|split; [reflexivity|congruence]]].
Qed.

(** A whole call, by exit path. *)
Lemma run_spec ws w p w' :
  run ws w = Some (p, w') ->
  match p with
  | ExitGuard => isWarming (this w) = true /\ w' = emit Invoke w
  | ExitStartRaised e =>
      isWarming (this w) = false
      /\ onWarmingStart (config (this w)) = Raised e
      /\ this w' = set_isWarming true (this w)
  | _ => isWarming (this w) = false /\ exit_spec w p w'
  end.
Proof.
  unfold run. intros Hd. pose proof (warmReplicateAPI_spec w) as H1.
  destruct (warmReplicateAPI w) as [[k|p1] w1].
  - destruct H1 as (Hflag & Hagree & _).
    pose proof (drive_spec ws k w w1 p w' Hagree Hd) as Hspec.
    destruct p; try (split; assumption);
      destruct Hspec as (_ & _ & _ & _ & []).
  - rewrite drive_return in Hd. injection Hd as <- <-. exact H1.
Qed.

(** The start hook is called before [try]: when it raises, nothing lowers
    the flag the call has just raised. *)
Lemma start_hook_raises ws w e w' :
  run ws w = Some (ExitStartRaised e, w') ->
  isWarming (this w) = false /\ isWarming (this w') = true.
Proof.
  intros Hrun. destruct (run_spec ws w _ w' Hrun) as (Hflag & _ & Hthis).
  split; [exact Hflag|]. rewrite Hthis. reflexivity.
Qed.

(** The pieces that suspend again, as equations. *)
Lemma piece_sleep id w :
  try_region (after_sleep id) w = (Suspend (AwaitStatus id), emit (GetStatus id) w).
Proof. reflexivity. Qed.

Lemma piece_status_ok id resp w :
  ok resp = true ->
  try_region (after_status id (Value resp)) w = (Suspend (AwaitStatusJson id), w).
Proof. intros H. unfold_try. simpl. rewrite H. reflexivity. Qed.

Lemma piece_status_json_pending id fp w :
  pending fp = true ->
  try_region (after_status_json id (Value fp)) w
  = (Suspend (AwaitSleep id), emit (Wait 2000) w).
Proof. intros H. unfold_try. simpl. rewrite H. reflexivity. Qed.

Lemma piece_create_ok resp w :
  ok resp = true ->
  try_region (after_create (Value resp)) w = (Suspend AwaitCreateJson, w).
Proof. intros H. unfold_try. simpl. rewrite H. reflexivity. Qed.

Lemma piece_create_json_pending fp w :
  pending fp = true ->
  try_region (after_create_json (Value fp)) w
  = (Suspend (AwaitSleep (predictionId fp)), emit (Wait 2000) w).
Proof. intros H. unfold_try. simpl. rewrite H. reflexivity. Qed.

(** Polling ends as soon as one round is decisive. *)
Lemma drive_rounds rs : forall id w,
  existsb (fun r => decisive (status_response r) (status_body r)) rs = true ->
  exists p w', drive (flat_map round_wakes rs) (Suspend (AwaitSleep id), w) = Some (p, w').
Proof.
  induction rs as [|r rs IH]; intros id w Hex; simpl in Hex; [discriminate|].
  destruct r as [sr sb]. unfold decisive in Hex. simpl in Hex.
  cbn [flat_map round_wakes app status_response status_body drive resume].
  rewrite piece_sleep. cbn [drive resume].
  destruct sr as [resp|e]; [|piece_returns].
  destruct (ok resp) eqn:Hok; [|piece_returns; congruence].
  rewrite piece_status_ok by exact Hok. cbn [drive resume].
  destruct sb as [fp|e]; [|piece_returns].
  destruct (pending fp) eqn:Hp.
  - rewrite piece_status_json_pending by exact Hp. apply IH. exact Hex.
  - piece_returns; congruence.
Qed.

(** A call whose network answers settle does reach its exit. *)
Lemma run_settles s w :
  settles s = true -> exists p w', run (wakes s) w = Some (p, w').
Proof.
  intros Hs. unfold run, wakes.
  pose proof (warmReplicateAPI_spec w) as H1.
  destruct (warmReplicateAPI w) as [[k|p1] w1] eqn:Hw;
    [|rewrite drive_return; eauto].
  assert (k = AwaitCreate) as ->.
  { revert Hw. unfold warmReplicateAPI. simpl.
    destruct (isWarming (this w)); [discriminate|].
    unfold_try. split_piece; congruence. }
  unfold settles, decisive in Hs. cbn [drive resume].
  destruct (create_response s) as [resp|e]; [|piece_returns].
  destruct (ok resp) eqn:Hok; [|piece_returns; congruence].
  rewrite piece_create_ok by exact Hok. cbn [drive resume].
  destruct (create_body s) as [fp|e]; [|piece_returns].
  destruct (pending fp) eqn:Hp.
  - rewrite piece_create_json_pending by exact Hp. apply drive_rounds. exact Hs.
  - piece_returns; congruence.
Qed.


(** ** The claims *)

(** Counterexample to C1 as stated: a call that returns at its entry guard
    leaves [isWarming] true. *)
Lemma guard_exit_keeps_flag :
  isWarming (this w_frozen) = true
  /\ summary (run [] w_frozen) = Some (ExitGuard, true, 0, t_0, [Invoke])
  /\ isWarming (this (world_after [] w_frozen)) <> false.
Proof.
  split; [vm_compute; reflexivity|].
  split; [vm_compute; reflexivity|].
  vm_compute. discriminate.
Qed.

(** C1, as the code has it.  A call of [warmReplicateAPI] that returns at
    its entry guard leaves the object as it found it, [isWarming] still
    true.  A call that gets past the guard and whose start hook returns
    ends with [isWarming] false on every exit path: a non-OK creation
    status, a succeeded or a failed prediction, and any failure raised
    inside [try], also one raised by the completion or the error hook.
    Every call whose network answers settle reaches one of these exits. *)
Theorem flag_after_run :
  (forall ws w p w',
     run ws w = Some (p, w') ->
     (p = ExitGuard ->
        isWarming (this w) = true /\ this w' = this w)
     /\ (p <> ExitGuard -> (forall e, p <> ExitStartRaised e) ->
        isWarming (this w) = false /\ isWarming (this w') = false))
  /\ (forall s w, settles s = true -> exists p w', run (wakes s) w = Some (p, w')).
Proof.
  split; [|apply run_settles].
  intros ws w p w' Hrun. pose proof (run_spec ws w p w' Hrun) as Hspec.
  split.
  - intros ->. destruct Hspec as [Hflag ->]. split; [exact Hflag|reflexivity].
  - intros Hg Hs.
    destruct p; [congruence|exfalso; apply (Hs e); reflexivity|..];
      destruct Hspec as (Hflag & Hdown & _); split; assumption.
Qed.

Lemma flag_after_run_witness :
  run answers_succeeded w_ready
  = Some (ExitSucceeded, world_after answers_succeeded w_ready)
  /\ isWarming (this (world_after answers_succeeded w_ready)) = false.
Proof.
  assert (Hrun : run answers_succeeded w_ready
                 = Some (ExitSucceeded, world_after answers_succeeded w_ready))
    by (vm_compute; reflexivity).
  split; [exact Hrun|].
  refine (proj2 (proj2 (proj1 flag_after_run _ _ _ _ Hrun) _ _)).
  - discriminate.
  - discriminate.
Defined.

(** Counterexample to C2 as stated: with an error hook that raises, a
    creation request answered 500 has the hook called twice and
    [lastWarmingTime] updated. *)
Lemma not_ok_with_raising_hook :
  lastWarmingTime (this w_error_hook_raises) = 0
  /\ summary (run [GotResponse (Value response_500)] w_error_hook_raises)
     = Some (ExitCatchRaised (Error "hook failed") (Error "hook failed"),
             false, t_0, 0,
             [Invoke; OnStart; PostWarm data_url "/gifs/thumbs_up.gif";
              OnError (Error "Warming failed: 500");
              OnError (Error "hook failed")])
  /\ count is_error
       (trace (world_after [GotResponse (Value response_500)] w_error_hook_raises))
     = 2%nat
  /\ lastWarmingTime
       (this (world_after [GotResponse (Value response_500)] w_error_hook_raises))
     <> lastWarmingTime (this w_error_hook_raises).
Proof.
  split; [vm_compute; reflexivity|].
  split; [vm_compute; reflexivity|].
  split; [vm_compute; reflexivity|].
  vm_compute. discriminate.
Qed.

(** C2, as the code has it.  When the creation request returns a non-OK
    status and the error hook returns normally, the executor calls the
    error hook exactly once, with an error whose message carries the status
    code, and returns: [lastWarmingTime] and [lastSuccessfulWarmingTime]
    are unchanged, nothing is polled, and [isWarming] is false again. *)
Theorem creation_not_ok (w : world) (resp : response) (img : string) (ws : list wake) :
  isWarming (this w) = false ->
  onWarmingStart (config (this w)) = Value tt ->
  canvas w = Value img ->
  ok resp = false ->
  onWarmingError (config (this w))
    (Error ("Warming failed: " +:+ number_to_string (status resp))) = Value tt ->
  exists w',
    run (GotResponse (Value resp) :: ws) w = Some (ExitNotOk, w')
    /\ trace w' =
         trace w ++ [Invoke; OnStart; PostWarm img "/gifs/thumbs_up.gif";
                     OnError (Error ("Warming failed: "
                                     +:+ number_to_string (status resp)))]
    /\ count is_error (trace w') = S (count is_error (trace w))
    /\ count is_poll (trace w') = count is_poll (trace w)
    /\ lastWarmingTime (this w') = lastWarmingTime (this w)
    /\ lastSuccessfulWarmingTime (this w') = lastSuccessfulWarmingTime (this w)
    /\ isWarming (this w') = false.
Proof.
  intros Hflag Hstart Hcanvas Hok Hhook.
  unfold run, warmReplicateAPI. simpl. rewrite Hflag.
  unfold_try. simpl. rewrite Hstart, Hcanvas.
  cbn [drive resume]. unfold_try. simpl.
  rewrite Hok. simpl. rewrite Hhook. rewrite drive_return.
  eexists. split; [reflexivity|]. simpl.
  rewrite <- !app_assoc. simpl.
  split; [reflexivity|]. rewrite !count_app. simpl.
  repeat split; lia.
Qed.

Lemma creation_not_ok_witness :
  exists w',
    run [GotResponse (Value response_500)] w_ready = Some (ExitNotOk, w')
    /\ trace w' =
         trace w_ready
         ++ [Invoke; OnStart; PostWarm data_url "/gifs/thumbs_up.gif";
             OnError (Error ("Warming failed: "
                             +:+ number_to_string (status response_500)))]
    /\ lastWarmingTime (this w') = lastWarmingTime (this w_ready).
Proof.
  assert (H1 : isWarming (this w_ready) = false) by reflexivity.
  assert (H2 : onWarmingStart (config (this w_ready)) = Value tt) by reflexivity.
  assert (H3 : canvas w_ready = Value data_url) by reflexivity.
  assert (H4 : ok response_500 = false) by reflexivity.
  assert (H5 : onWarmingError (config (this w_ready))
                 (Error ("Warming failed: "
                         +:+ number_to_string (status response_500))) = Value tt)
    by reflexivity.
  destruct (creation_not_ok w_ready response_500 data_url [] H1 H2 H3 H4 H5)
    as (w' & Hrun & Htr & _ & _ & Hl & _).
  exists w'. split; [exact Hrun|]. split; [exact Htr|exact Hl].
Defined.

(** Counterexample to C3 as stated: a trigger that arrives while warming
    is frozen does not cancel the pending timer. *)
Lemma dropped_trigger_keeps_timer :
  reachable w_frozen
  /\ warmingTimer (this w_frozen) = Some 1%positive
  /\ isWarming (this w_frozen) = true
  /\ timers w_frozen !! 1%positive = Some 7000
  /\ timers (triggerWarmCall w_frozen) !! 1%positive = Some 7000
  /\ timers (triggerWarmCall w_frozen) !! 1%positive <> None.
Proof.
  split; [|repeat split; vm_compute; (reflexivity || discriminate)].
  eapply reachable_step; [|apply step_freeze].
  eapply reachable_step; [|apply step_trigger].
  apply w_cooling_reachable.
Qed.

(** C3, as the code has it.  In every world the callers and the host can
    bring about: a trigger that arrives while [isWarming] is false cancels
    the pending timer before it chooses between the immediate and the
    delayed fire, and a delayed fire puts the new timer in its place; a
    trigger that arrives while [isWarming] is true is dropped before any
    cancellation and leaves the world, pending timer included, as it was;
    and at most one delayed fire is outstanding. *)
Theorem pending_timer_discipline (w : world) :
  reachable w ->
  (isWarming (this w) = false ->
     (forall h, warmingTimer (this w) = Some h ->
                timers (triggerWarmCall w) !! h = None)
     /\ (0 < remaining w ->
         warmingTimer (this (triggerWarmCall w)) = Some (next_handle w)
         /\ timers (triggerWarmCall w) = {[ next_handle w := remaining w ]})
     /\ (remaining w = 0 ->
         fired w (triggerWarmCall w) /\ timers (triggerWarmCall w) = ∅))
  /\ (isWarming (this w) = true -> triggerWarmCall w = w)
  /\ (size (timers w) <= 1)%nat
  /\ (size (timers (triggerWarmCall w)) <= 1)%nat.
Proof.
  intros Hreach. pose proof (reachable_tidy w Hreach) as Htidy.
  split; [|split; [apply trigger_busy|split]].
  - intros Hidle.
    destruct (idle_trigger_branches w Hidle Htidy) as (Himm & Hdel).
    split; [|split].
    + intros h Hh. pose proof (remaining_nonneg w) as Hnn.
      destruct (Z.eq_dec (remaining w) 0) as [Hz|Hnz].
      * destruct (Himm Hz) as [_ ->]. apply lookup_empty.
      * destruct (Hdel ltac:(lia)) as (_ & ->).
        apply lookup_singleton_ne. pose proof (proj2 Htidy h Hh). lia.
    + intros Hrem. apply Hdel, Hrem.
    + exact Himm.
  - apply tidy_size, Htidy.
  - apply tidy_size, trigger_tidy, Htidy.
Qed.

Lemma pending_timer_discipline_witness :
  reachable (triggerWarmCall w_cooling)
  /\ timers (triggerWarmCall w_cooling) !! 1%positive = Some 7000
  /\ timers (triggerWarmCall (triggerWarmCall w_cooling)) !! 1%positive = None.
Proof.
  assert (Hr : reachable (triggerWarmCall w_cooling)).
  { eapply reachable_step; [|apply step_trigger]. apply w_cooling_reachable. }
  split; [exact Hr|]. split; [reflexivity|].
  exact (proj1 (proj1 (pending_timer_discipline _ Hr) eq_refl) 1%positive eq_refl).
Defined.

(** C4. A trigger that arrives while [isWarming] is false computes the
    remaining cooldown [max(0, cooldownPeriod - (now - lastSuccessful))].
    When it is 0 the executor is invoked at once and no timeout is left.
    When it is positive the executor is not invoked, exactly one delayed
    fire is outstanding, set for the remaining time and stored in
    [warmingTimer]; when it fires it invokes the executor and clears
    [warmingTimer].  A second trigger that arrives before the delayed fire
    is due cancels it and puts one new delayed fire, with the delay computed
    afresh, in its place. *)
Theorem trigger_when_idle (w : world) :
  isWarming (this w) = false ->
  reachable w ->
  let w' := triggerWarmCall w in
  (remaining w = 0 -> fired w w' /\ timers w' = ∅)
  /\ (0 < remaining w ->
      trace w' = trace w
      /\ warmingTimer (this w') = Some (next_handle w)
      /\ timers w' = {[ next_handle w := remaining w ]}
      /\ (exists w'',
            fire (next_handle w) w' = Some w''
            /\ fired w' w''
            /\ warmingTimer (this w'') = None
            /\ timers w'' = ∅)
      /\ (now_of w' < now_of w + remaining w ->
          let w2 := triggerWarmCall w' in
          remaining w' =
            cooldownPeriod (config (this w))
            - (now_of w' - lastSuccessfulWarmingTime (this w))
          /\ 0 < remaining w'
          /\ trace w2 = trace w
          /\ timers w2 !! next_handle w = None
          /\ warmingTimer (this w2) = Some (next_handle w')
          /\ timers w2 = {[ next_handle w' := remaining w' ]})).
Proof.
  intros Hidle Hreach w'. subst w'.
  pose proof (reachable_tidy w Hreach) as Htidy. split.
  - intros Hrem.
    destruct (trigger_immediate w Hidle Hrem) as (Hf & Ht & _).
    split; [exact Hf|]. rewrite Ht. apply tidy_cancelled, Htidy.
  - intros Hrem.
    destruct (trigger_delayed w Hidle Hrem)
      as (Htr & Hfl & Hw & Hlw & Hls & Hcfg & Hwt & Htm & Hnh & Hrd & Hclk).
    rewrite (tidy_cancelled w Htidy) in Htm.
    assert (Htidy' : tidy (triggerWarmCall w)).
    { split.
      - intros h d. rewrite Htm, Hwt. intros Hl.
        apply lookup_insert_Some in Hl as [[-> _]|[_ Hl]]; [reflexivity|].
        rewrite lookup_empty in Hl. discriminate.
      - intros h. rewrite Hwt, Hnh. intros [= <-]. lia. }
    repeat split; try assumption.
    + destruct (fire_pending (triggerWarmCall w) (next_handle w) (remaining w))
        as (w'' & Hfire & Htm'' & Hwt'' & Hfired).
      { rewrite Htm. apply lookup_insert_eq. }
      exists w''. repeat split; auto.
      rewrite Htm'', Htm, delete_insert_eq. apply delete_empty.
    + unfold remaining, now_of in *. rewrite Hcfg, Hls, Hclk, Hrd in *. lia.
    + unfold remaining, now_of in *. rewrite Hcfg, Hls, Hclk, Hrd in *. lia.
    + assert (Hrem' : 0 < remaining (triggerWarmCall w)).
      { unfold remaining, now_of in *. rewrite Hcfg, Hls, Hclk, Hrd in *. lia. }
      destruct (trigger_delayed _ Hw Hrem') as (Htr' & _). congruence.
    + assert (Hrem' : 0 < remaining (triggerWarmCall w)).
      { unfold remaining, now_of in *. rewrite Hcfg, Hls, Hclk, Hrd in *. lia. }
      destruct (trigger_delayed _ Hw Hrem')
        as (_ & _ & _ & _ & _ & _ & _ & Htm' & _).
      rewrite Htm', (tidy_cancelled _ Htidy'), Hnh.
      rewrite lookup_insert_ne by lia. apply lookup_empty.
    + assert (Hrem' : 0 < remaining (triggerWarmCall w)).
      { unfold remaining, now_of in *. rewrite Hcfg, Hls, Hclk, Hrd in *. lia. }
      destruct (trigger_delayed _ Hw Hrem') as (_ & _ & _ & _ & _ & _ & Hwt' & _).
      exact Hwt'.
    + assert (Hrem' : 0 < remaining (triggerWarmCall w)).
      { unfold remaining, now_of in *. rewrite Hcfg, Hls, Hclk, Hrd in *. lia. }
      destruct (trigger_delayed _ Hw Hrem')
        as (_ & _ & _ & _ & _ & _ & _ & Htm' & _).
      rewrite Htm', (tidy_cancelled _ Htidy'). reflexivity.
Qed.

Lemma trigger_when_idle_witness :
  isWarming (this w_cooling) = false
  /\ reachable w_cooling
  /\ remaining w_cooling = 7000
  /\ timers (triggerWarmCall w_cooling) = {[ 1%positive := 7000 ]}
  /\ timers (triggerWarmCall (triggerWarmCall w_cooling)) = {[ 2%positive := 5000 ]}.
Proof.
  split; [reflexivity|]. split; [apply w_cooling_reachable|]. split; [reflexivity|].
  destruct (trigger_when_idle w_cooling eq_refl w_cooling_reachable) as [_ Hd].
  destruct Hd as (_ & _ & Ht & _ & H2); [reflexivity|].
  split; [exact Ht|].
  destruct H2 as (_ & _ & _ & _ & _ & Ht2); [reflexivity|].
  exact Ht2.
Defined.

(** C5. Any number of trigger invocations made while [isWarming] is true
    leaves the world as it was: no executor run starts (the trace and the
    suspended calls are the same) and [isWarming], [lastWarmingTime],
    [lastSuccessfulWarmingTime] and [warmingTimer], as well as the timeout
    table, keep their values. *)
Theorem triggers_dropped (n : nat) (w : world) :
  isWarming (this w) = true ->
  triggers n w = w
  /\ trace (triggers n w) = trace w
  /\ inflight (triggers n w) = inflight w
  /\ this (triggers n w) = this w
  /\ timers (triggers n w) = timers w.
Proof.
  intros Hbusy.
  assert (Heq : triggers n w = w).
  { unfold triggers. induction n as [|n IH]; simpl; [reflexivity|].
    rewrite IH. apply trigger_busy, Hbusy. }
  rewrite Heq. repeat split.
Qed.

Lemma triggers_dropped_witness :
  isWarming (this w_frozen) = true /\ triggers 3 w_frozen = w_frozen.
Proof.
  split; [reflexivity|].
  apply (triggers_dropped 3 w_frozen). reflexivity.
Defined.




(** C7. [freezeWarming] raises [isWarming] and leaves the timeout table,
    [warmingTimer] and both timestamps alone; [resetWarmingCooldown] lowers
    [isWarming] and sets [lastSuccessfulWarmingTime] to now.  A trigger
    right after a freeze is dropped; a trigger after a reset, once the
    cooldown has elapsed since the reset, fires the executor at once. *)
Theorem freeze_then_reset (w : world) :
  (isWarming (this (freezeWarming w)) = true
   /\ timers (freezeWarming w) = timers w
   /\ warmingTimer (this (freezeWarming w)) = warmingTimer (this w)
   /\ lastWarmingTime (this (freezeWarming w)) = lastWarmingTime (this w)
   /\ lastSuccessfulWarmingTime (this (freezeWarming w))
      = lastSuccessfulWarmingTime (this w))
  /\ (isWarming (this (resetWarmingCooldown w)) = false
      /\ lastSuccessfulWarmingTime (this (resetWarmingCooldown w)) = now_of w)
  /\ triggerWarmCall (freezeWarming w) = freezeWarming w
  /\ (cooldownPeriod (config (this w)) <= now_of (resetWarmingCooldown w) - now_of w ->
      fired (resetWarmingCooldown w) (triggerWarmCall (resetWarmingCooldown w))).
Proof.
  split; [repeat split|]. split; [repeat split|]. split.
  - apply trigger_busy. reflexivity.
  - intros Helapsed. apply (trigger_immediate (resetWarmingCooldown w)).
    + reflexivity.
    + unfold remaining, now_of in *. simpl in *. lia.
Qed.

Lemma freeze_then_reset_witness :
  cooldownPeriod (config (this w_sparse))
    <= now_of (resetWarmingCooldown w_sparse) - now_of w_sparse
  /\ fired (resetWarmingCooldown w_sparse)
        (triggerWarmCall (resetWarmingCooldown w_sparse)).
Proof.
  assert (H : cooldownPeriod (config (this w_sparse))
              <= now_of (resetWarmingCooldown w_sparse) - now_of w_sparse)
    by (vm_compute; discriminate).
  split; [exact H|].
  exact (proj2 (proj2 (proj2 (freeze_then_reset w_sparse))) H).
Defined.

(** C8. A constructor given a falsy [cooldownPeriod] (absent, 0 or NaN)
    stores 10000; no options make the stored cooldown 0. *)
Theorem constructor_cooldown_default (options : Options) :
  (truthy (opt_cooldownPeriod options) = false ->
   cooldownPeriod (config (constructor options)) = 10000)
  /\ cooldownPeriod (config (constructor (with_cooldown (Num 0)))) = 10000
  /\ cooldownPeriod (config (constructor options)) <> 0.
Proof.
  unfold constructor, cooldown_or, truthy. simpl.
  destruct (opt_cooldownPeriod options) as [[z|]|]; simpl.
  - destruct (Z.eqb_spec z 0); simpl; repeat split; try lia; try discriminate.
  - repeat split; lia.
  - repeat split; lia.
Qed.

Lemma constructor_cooldown_default_witness :
  truthy (opt_cooldownPeriod (with_cooldown NaN)) = false
  /\ cooldownPeriod (config (constructor (with_cooldown NaN))) = 10000.
Proof.
  split; [reflexivity|].
  exact (proj1 (constructor_cooldown_default (with_cooldown NaN)) eq_refl).
Defined.

(** C9. When [now - lastSuccessfulWarmingTime] equals [cooldownPeriod] and
    [isWarming] is false, a trigger fires the executor at once (the
    remaining cooldown is 0), while [shouldWarmAPI], and with it [canWarm]
    of the status query read at such an instant, is false. *)
Theorem cooldown_boundary (w : world) :
  isWarming (this w) = false ->
  now_of w - lastSuccessfulWarmingTime (this w) = cooldownPeriod (config (this w)) ->
  remaining w = 0
  /\ fired w (triggerWarmCall w)
  /\ fst (shouldWarmAPI w) = false
  /\ (clock w (2 + reads w) = now_of w -> canWarm (fst (getStatus w)) = false).
Proof.
  intros Hidle Hedge.
  assert (Hrem : remaining w = 0) by (unfold remaining; lia).
  split; [exact Hrem|]. split; [apply trigger_immediate; assumption|].
  unfold shouldWarmAPI, getStatus, now_of in *. simpl. split.
  - rewrite Hedge. rewrite Z.ltb_irrefl. apply andb_false_r.
  - intros Hsame. rewrite Hsame, Hedge, Z.ltb_irrefl. apply andb_false_r.
Qed.

Lemma cooldown_boundary_witness :
  isWarming (this w_boundary) = false
  /\ now_of w_boundary - lastSuccessfulWarmingTime (this w_boundary)
     = cooldownPeriod (config (this w_boundary))
  /\ fired w_boundary (triggerWarmCall w_boundary)
  /\ fst (shouldWarmAPI w_boundary) = false.
Proof.
  split; [reflexivity|]. split; [reflexivity|].
  destruct (cooldown_boundary w_boundary eq_refl eq_refl) as (_ & Hf & Hs & _).
  split; assumption.
Defined.

(** C10. [resetWarmingCooldown] changes [isWarming] and
    [lastSuccessfulWarmingTime] only: [warmingTimer], [lastWarmingTime], the
    configuration and the timeout table are as before, so a delayed fire
    scheduled before the reset is still outstanding after it, and when the
    host fires it the executor is invoked. *)
Theorem reset_keeps_pending_timer (w : world) (h : handle) (d : Z) :
  timers w !! h = Some d ->
  let w' := resetWarmingCooldown w in
  (isWarming (this w') = false
   /\ lastSuccessfulWarmingTime (this w') = now_of w
   /\ warmingTimer (this w') = warmingTimer (this w)
   /\ lastWarmingTime (this w') = lastWarmingTime (this w)
   /\ config (this w') = config (this w)
   /\ timers w' = timers w
   /\ next_handle w' = next_handle w
   /\ trace w' = trace w
   /\ inflight w' = inflight w)
  /\ timers w' !! h = Some d
  /\ exists w'', fire h w' = Some w'' /\ fired w' w''.
Proof.
  intros Hl w'. subst w'. split; [repeat split|]. split; [exact Hl|].
  destruct (fire_pending (resetWarmingCooldown w) h d Hl)
    as (w'' & Hfire & _ & _ & Hfired).
  exists w''. split; [exact Hfire|]. apply Hfired. reflexivity.
Qed.

Lemma reset_keeps_pending_timer_witness :
  timers (triggerWarmCall w_cooling) !! 1%positive = Some 7000
  /\ timers (resetWarmingCooldown (triggerWarmCall w_cooling)) !! 1%positive = Some 7000.
Proof.
  split; [reflexivity|].
  exact (proj1 (proj2 (reset_keeps_pending_timer (triggerWarmCall w_cooling)
                         1%positive 7000 eq_refl))).
Defined.

(** * Further properties *)

(** ** Reachable worlds *)

Lemma reachable_trigger w : reachable w -> reachable (triggerWarmCall w).
Proof. intros H. eapply reachable_step; [exact H|apply step_trigger]. Qed.

Lemma reachable_freeze w : reachable w -> reachable (freezeWarming w).
Proof. intros H. eapply reachable_step; [exact H|apply step_freeze]. Qed.


(** ** Teardown *)

(** X1. In every reachable world [destroy] leaves no delayed fire behind:
    the timeout table is empty, [warmingTimer] is null and no handle can
    fire.  It touches neither [isWarming], the timestamps, the
    configuration, the trace nor a suspended call, and a second [destroy]
    changes nothing. *)
Theorem destroy_cancels (w : world) :
  reachable w ->
  timers (destroy w) = ∅
  /\ warmingTimer (this (destroy w)) = None
  /\ (forall h, fire h (destroy w) = None)
  /\ isWarming (this (destroy w)) = isWarming (this w)
  /\ lastWarmingTime (this (destroy w)) = lastWarmingTime (this w)
  /\ lastSuccessfulWarmingTime (this (destroy w))
     = lastSuccessfulWarmingTime (this w)
  /\ config (this (destroy w)) = config (this w)
  /\ trace (destroy w) = trace w
  /\ inflight (destroy w) = inflight w
  /\ destroy (destroy w) = destroy w.
Proof.
  intros Hreach. pose proof (reachable_tidy w Hreach) as Htidy.
  pose proof (tidy_cancelled w Htidy) as Hc.
  unfold destroy, stopDetection, cancelled in *.
  destruct (warmingTimer (this w)) as [h0|] eqn:Ht; simpl.
  - rewrite Hc. repeat split.
    intros h. unfold fire. simpl. rewrite Hc, lookup_empty. reflexivity.
  - rewrite Ht, Hc. repeat split.
    intros h. unfold fire. rewrite Hc, lookup_empty. reflexivity.
Qed.

Lemma destroy_cancels_witness :
  reachable (triggerWarmCall w_cooling)
  /\ timers (triggerWarmCall w_cooling) !! 1%positive = Some 7000
  /\ timers (destroy (triggerWarmCall w_cooling)) = ∅.
Proof.
  assert (Hr : reachable (triggerWarmCall w_cooling)).
  { apply reachable_trigger, w_cooling_reachable. }
  split; [exact Hr|]. split; [reflexivity|].
  exact (proj1 (destroy_cancels _ Hr)).
Defined.

(** ** The delayed fire *)

(** X2. A delayed fire that comes due while [isWarming] is true is lost:
    the executor is entered and returns at its guard, so no hook is called
    and no request is made, and the callback still clears [warmingTimer];
    nothing is left in the timeout table to try again. *)
Theorem fire_while_warming (w : world) (h : handle) (d : Z) :
  reachable w ->
  timers w !! h = Some d ->
  isWarming (this w) = true ->
  exists w',
    fire h w = Some w'
    /\ trace w' = trace w ++ [Invoke]
    /\ inflight w' = inflight w
    /\ isWarming (this w') = true
    /\ lastWarmingTime (this w') = lastWarmingTime (this w)
    /\ lastSuccessfulWarmingTime (this w') = lastSuccessfulWarmingTime (this w)
    /\ warmingTimer (this w') = None
    /\ timers w' = ∅.
Proof.
  intros Hreach Hl Hbusy. pose proof (reachable_tidy w Hreach) as Htidy.
  pose proof (tidy_cancelled w Htidy) as Hc. unfold cancelled in Hc.
  rewrite (proj1 Htidy h d Hl) in Hc.
  unfold fire. rewrite Hl. eexists. split; [reflexivity|].
  unfold timer_callback, call_warmReplicateAPI, warmReplicateAPI. simpl.
  rewrite Hbusy. simpl. rewrite Hbusy, Hc. repeat split.
Qed.

Lemma fire_while_warming_witness :
  reachable w_frozen
  /\ timers w_frozen !! 1%positive = Some 7000
  /\ exists w', fire 1%positive w_frozen = Some w' /\ timers w' = ∅.
Proof.
  assert (Hr : reachable w_frozen).
  { apply reachable_freeze, reachable_trigger, w_cooling_reachable. }
  assert (Hl : timers w_frozen !! 1%positive = Some 7000) by reflexivity.
  assert (Hb : isWarming (this w_frozen) = true) by reflexivity.
  split; [exact Hr|]. split; [exact Hl|].
  destruct (fire_while_warming w_frozen 1%positive 7000 Hr Hl Hb)
    as (w' & Hf & _ & _ & _ & _ & _ & _ & Ht).
  exists w'. split; assumption.
Defined.

(** ** The status query *)

(** X3. After a call that ended in success, [shouldWarmAPI] is true
    exactly when the clock reading it takes is more than [cooldownPeriod]
    past the reading stored as [lastSuccessfulWarmingTime]; read at the
    same instant as the success it is false for any cooldown that is not
    negative. *)
Theorem should_warm_after_success (ws : list wake) (w w' : world) :
  run ws w = Some (ExitSucceeded, w') ->
  lastSuccessfulWarmingTime (this w') = clock w (S (reads w))
  /\ fst (shouldWarmAPI w')
     = (cooldownPeriod (config (this w))
        <? now_of w' - lastSuccessfulWarmingTime (this w'))
  /\ (0 <= cooldownPeriod (config (this w)) ->
      now_of w' = lastSuccessfulWarmingTime (this w') ->
      fst (shouldWarmAPI w') = false).
Proof.
  intros Hrun. destruct (run_spec ws w _ w' Hrun)
    as (_ & Hflag & Hcfg & _ & Hclk & _ & Hls & _).
  split; [exact Hls|].
  assert (Heq : fst (shouldWarmAPI w')
                = (cooldownPeriod (config (this w))
                   <? now_of w' - lastSuccessfulWarmingTime (this w'))).
  { unfold shouldWarmAPI, now_of. simpl. rewrite Hflag, Hcfg. reflexivity. }
  split; [exact Heq|].
  intros Hpos Hnow. rewrite Heq. apply Z.ltb_ge. lia.
Qed.

Lemma should_warm_after_success_witness :
  run answers_succeeded w_ready
  = Some (ExitSucceeded, world_after answers_succeeded w_ready)
  /\ fst (shouldWarmAPI (world_after answers_succeeded w_ready)) = false.
Proof.
  assert (Hrun : run answers_succeeded w_ready
                 = Some (ExitSucceeded, world_after answers_succeeded w_ready))
    by (vm_compute; reflexivity).
  split; [exact Hrun|].
  destruct (should_warm_after_success _ _ _ Hrun) as (_ & Heq & _).
  rewrite Heq. vm_compute. reflexivity.
Defined.

(** X4. Whenever [shouldWarmAPI] answers true, a trigger that reads the
    same clock value fires the executor at once and schedules nothing. *)
Theorem should_warm_then_trigger_fires (w : world) :
  reachable w ->
  fst (shouldWarmAPI w) = true ->
  isWarming (this w) = false
  /\ remaining w = 0
  /\ fired w (triggerWarmCall w)
  /\ timers (triggerWarmCall w) = ∅.
Proof.
  intros Hreach Hs. pose proof (reachable_tidy w Hreach) as Htidy.
  unfold shouldWarmAPI in Hs. simpl in Hs.
  apply andb_true_iff in Hs as [Hflag Hlt].
  apply negb_true_iff in Hflag. apply Z.ltb_lt in Hlt.
  assert (Hrem : remaining w = 0) by (unfold remaining, now_of; lia).
  split; [exact Hflag|]. split; [exact Hrem|].
  exact (proj1 (idle_trigger_branches w Hflag Htidy) Hrem).
Qed.

Lemma should_warm_then_trigger_fires_witness :
  reachable w_ready
  /\ fst (shouldWarmAPI w_ready) = true
  /\ fired w_ready (triggerWarmCall w_ready).
Proof.
  assert (Hr : reachable w_ready) by apply reachable_boot.
  assert (Hs : fst (shouldWarmAPI w_ready) = true) by (vm_compute; reflexivity).
  split; [exact Hr|]. split; [exact Hs|].
  exact (proj1 (proj2 (proj2 (should_warm_then_trigger_fires w_ready Hr Hs)))).
Defined.

(** ** Debouncing *)

Lemma triggers_succ n w : triggers (S n) w = triggerWarmCall (triggers n w).
Proof. reflexivity. Qed.

(** The state after [S n] triggers that all read the clock before the
    cooldown ends. *)
Lemma triggers_during_cooldown n : forall w,
  tidy w ->
  isWarming (this w) = false ->
  (forall i, (i <= n)%nat -> clock w (reads w + i) < cooldown_end w) ->
  let w' := triggers (S n) w in
  tidy w'
  /\ isWarming (this w') = false
  /\ lastWarmingTime (this w') = lastWarmingTime (this w)
  /\ lastSuccessfulWarmingTime (this w') = lastSuccessfulWarmingTime (this w)
  /\ config (this w') = config (this w)
  /\ clock w' = clock w
  /\ reads w' = (reads w + S n)%nat
  /\ trace w' = trace w
  /\ inflight w' = inflight w
  /\ exists h,
       warmingTimer (this w') = Some h
       /\ timers w' = {[ h := cooldown_end w - clock w (reads w + n) ]}.
Proof.
  induction n as [|n IH]; intros w Htidy Hidle Hearly.
  - assert (Hrem : 0 < remaining w).
    { pose proof (Hearly 0%nat ltac:(lia)) as H0.
      rewrite Nat.add_0_r in H0. unfold remaining, now_of, cooldown_end in *. lia. }
    cbn zeta. change (triggers 1 w) with (triggerWarmCall w).
    destruct (trigger_delayed w Hidle Hrem)
      as (Htr & Hfl & Hw & Hlw & Hls & Hcfg & Hwt & Htm & Hnh & Hrd & Hclk).
    rewrite (tidy_cancelled w Htidy) in Htm.
    rewrite !Nat.add_0_r.
    split; [apply trigger_tidy, Htidy|].
    repeat split; try assumption; [lia|].
    exists (next_handle w). split; [exact Hwt|].
    replace (cooldown_end w - clock w (reads w)) with (remaining w)
      by (unfold remaining, now_of, cooldown_end in *; lia).
    exact Htm.
  - cbn zeta. rewrite triggers_succ.
    destruct (IH w Htidy Hidle ltac:(intros i Hi; apply Hearly; lia))
      as (Htidy' & Hidle1 & Hlw1 & Hls1 & Hcfg1 & Hclk & Hrd & Htr & Hfl & _).
    set (w1 := triggers (S n) w) in *.
    assert (Hrem : 0 < remaining w1).
    { pose proof (Hearly (S n) ltac:(lia)) as H0.
      unfold remaining, now_of, cooldown_end in *.
      rewrite Hclk, Hrd, Hls1, Hcfg1. lia. }
    destruct (trigger_delayed w1 Hidle1 Hrem)
      as (Htr2 & Hfl2 & Hw2 & Hlw2 & Hls2 & Hcfg2 & Hwt2 & Htm2 & Hnh2 & Hrd2 & Hclk2).
    rewrite (tidy_cancelled w1 Htidy') in Htm2.
    split; [apply trigger_tidy, Htidy'|].
    repeat split; try congruence.
    + rewrite Hrd2, Hrd. lia.
    + exists (next_handle w1). split; [exact Hwt2|].
      replace (cooldown_end w - clock w (reads w + S n)) with (remaining w1)
        by (unfold remaining, now_of, cooldown_end in *;
            rewrite Hclk, Hrd, Hls1, Hcfg1 in *; lia).
      exact Htm2.
Qed.

(** X5. Triggers that arrive in a row while [isWarming] is false and the
    cooldown has not ended collapse into one delayed fire: however many
    there are, the executor is not entered, exactly one timeout is
    outstanding, and it is due when the cooldown ends: its delay added to
    the clock reading of the last trigger is
    [lastSuccessfulWarmingTime + cooldownPeriod]. *)
Theorem triggers_debounced (n : nat) (w : world) :
  reachable w ->
  isWarming (this w) = false ->
  (forall i, (i <= n)%nat -> clock w (reads w + i) < cooldown_end w) ->
  let w' := triggers (S n) w in
  trace w' = trace w
  /\ inflight w' = inflight w
  /\ isWarming (this w') = false
  /\ lastSuccessfulWarmingTime (this w') = lastSuccessfulWarmingTime (this w)
  /\ exists h delay,
       warmingTimer (this w') = Some h
       /\ timers w' = {[ h := delay ]}
       /\ 0 < delay
       /\ clock w (reads w + n) + delay = cooldown_end w.
Proof.
  intros Hreach Hidle Hearly.
  destruct (triggers_during_cooldown n w (reachable_tidy w Hreach) Hidle Hearly)
    as (_ & Hidle' & _ & Hls & _ & _ & _ & Htr & Hfl & h & Hwt & Htm).
  cbn zeta. split; [exact Htr|]. split; [exact Hfl|].
  split; [exact Hidle'|]. split; [exact Hls|].
  exists h, (cooldown_end w - clock w (reads w + n)).
  split; [exact Hwt|]. split; [exact Htm|].
  pose proof (Hearly n ltac:(lia)). lia.
Qed.

Lemma triggers_debounced_witness :
  reachable w_cooling
  /\ isWarming (this w_cooling) = false
  /\ trace (triggers 2 w_cooling) = trace w_cooling
  /\ exists h delay,
       timers (triggers 2 w_cooling) = {[ h := delay ]}
       /\ clock w_cooling (reads w_cooling + 1) + delay = cooldown_end w_cooling.
Proof.
  assert (Hearly : forall i, (i <= 1)%nat ->
            clock w_cooling (reads w_cooling + i) < cooldown_end w_cooling).
  { intros i Hi. assert (i = 0 \/ i = 1)%nat as [->| ->] by lia; reflexivity. }
  split; [apply w_cooling_reachable|]. split; [reflexivity|].
  destruct (triggers_debounced 1 w_cooling w_cooling_reachable eq_refl Hearly)
    as (Htr & _ & _ & _ & h & delay & _ & Htm & _ & Hdue).
  split; [exact Htr|]. exists h, delay. split; assumption.
Defined.

(** ** Reconfiguration *)

(** X6. [updateConfig] stores a cooldown of 0 as given, unlike the
    constructor, and changes nothing but the configuration: a delayed fire
    already scheduled keeps the delay computed from the old cooldown.  With
    a cooldown of 0 every trigger that arrives while [isWarming] is false,
    at a clock reading not before [lastSuccessfulWarmingTime], fires the
    executor at once. *)
Theorem update_config_zero_cooldown (c : PartialConfig) (w : world) :
  reachable w ->
  new_cooldownPeriod c = Some 0 ->
  let w' := updateConfig c w in
  cooldownPeriod (config (this w')) = 0
  /\ timers w' = timers w
  /\ warmingTimer (this w') = warmingTimer (this w)
  /\ isWarming (this w') = isWarming (this w)
  /\ lastWarmingTime (this w') = lastWarmingTime (this w)
  /\ lastSuccessfulWarmingTime (this w') = lastSuccessfulWarmingTime (this w)
  /\ trace w' = trace w
  /\ (isWarming (this w) = false ->
      lastSuccessfulWarmingTime (this w) <= now_of w ->
      fired w' (triggerWarmCall w') /\ timers (triggerWarmCall w') = ∅).
Proof.
  intros Hreach Hc. cbn zeta.
  assert (Hr' : reachable (updateConfig c w))
    by (eapply reachable_step; [exact Hreach|apply step_config]).
  assert (Hcd : cooldownPeriod (config (this (updateConfig c w))) = 0)
    by (unfold updateConfig; simpl; rewrite Hc; reflexivity).
  split; [exact Hcd|]. do 6 (split; [reflexivity|]).
  intros Hidle Hnow.
  apply (proj1 (idle_trigger_branches (updateConfig c w) Hidle (reachable_tidy _ Hr'))).
  unfold remaining. rewrite Hcd.
  change (now_of (updateConfig c w)) with (now_of w).
  change (lastSuccessfulWarmingTime (this (updateConfig c w)))
    with (lastSuccessfulWarmingTime (this w)).
  lia.
Qed.

Lemma update_config_zero_cooldown_witness :
  reachable w_cooling
  /\ remaining w_cooling = 7000
  /\ fired (updateConfig zero_cooldown w_cooling)
        (triggerWarmCall (updateConfig zero_cooldown w_cooling)).
Proof.
  split; [apply w_cooling_reachable|]. split; [reflexivity|].
  assert (Hnow : lastSuccessfulWarmingTime (this w_cooling) <= now_of w_cooling)
    by (vm_compute; discriminate).
  destruct (update_config_zero_cooldown zero_cooldown w_cooling
              w_cooling_reachable eq_refl) as (_ & _ & _ & _ & _ & _ & _ & Hfire).
  exact (proj1 (Hfire eq_refl Hnow)).
Defined.

(** ** The requests of one call *)












(** ** Failures before and during polling *)

(** X9. When [createDummyImage] raises, a trigger that fires the executor
    deals with it before it returns: no request is made and no call stays
    suspended, the error hook gets the raised error, [lastWarmingTime] is
    set to now and [isWarming] is false again, so the next trigger is not
    dropped. *)
Theorem trigger_with_failing_canvas (w : world) (e : js_error) :
  reachable w ->
  isWarming (this w) = false ->
  remaining w = 0 ->
  onWarmingStart (config (this w)) = Value tt ->
  canvas w = Raised e ->
  let w' := triggerWarmCall w in
  trace w' = trace w ++ [Invoke; OnStart; OnError e]
  /\ inflight w' = inflight w
  /\ isWarming (this w') = false
  /\ lastWarmingTime (this w') = clock w (S (reads w))
  /\ lastSuccessfulWarmingTime (this w') = lastSuccessfulWarmingTime (this w)
  /\ timers w' = ∅.
Proof.
  intros Hreach Hidle Hrem Hstart Hcanvas. cbn zeta.
  pose proof (tidy_cancelled w (reachable_tidy w Hreach)) as Hc.
  rewrite (trigger_idle w Hidle). cbn zeta. rewrite Hrem. simpl.
  unfold call_warmReplicateAPI, warmReplicateAPI. simpl. rewrite Hidle.
  unfold_try. simpl. rewrite Hstart, Hcanvas. simpl.
  destruct (onWarmingError (config (this w)) e); simpl;
    rewrite <- !app_assoc, Hc; repeat split.
Qed.

Lemma trigger_with_failing_canvas_witness :
  reachable w_no_canvas
  /\ remaining w_no_canvas = 0
  /\ trace (triggerWarmCall w_no_canvas)
     = [Invoke; OnStart; OnError (Error "Cannot read properties of null")]
  /\ isWarming (this (triggerWarmCall w_no_canvas)) = false.
Proof.
  assert (Hr : reachable w_no_canvas) by apply reachable_boot.
  assert (Hrem : remaining w_no_canvas = 0) by (vm_compute; reflexivity).
  split; [exact Hr|]. split; [exact Hrem|].
  destruct (trigger_with_failing_canvas w_no_canvas _ Hr eq_refl Hrem eq_refl eq_refl)
    as (Ht & _ & Hflag & _).
  split; [exact Ht|exact Hflag].
Defined.

(** X10. A status request answered with a non-OK status, or rejected, ends
    the call through the [catch] block: the error hook gets "Failed to
    check warming prediction status" (or the rejection), [lastWarmingTime]
    is set to now, unlike for a non-OK creation response,
    [lastSuccessfulWarmingTime] is unchanged and [isWarming] is false. *)
Theorem status_request_fails (w : world) (id : string) (r : outcome response) :
  (match r with Value resp => ok resp = false | Raised _ => True end) ->
  let error := match r with
               | Value _ => Error "Failed to check warming prediction status"
               | Raised e => e
               end in
  exists f p w',
    resume (AwaitStatus id) (GotResponse r) = Some f
    /\ f w = (Return p, w')
    /\ (p = ExitCaught error \/ exists e', p = ExitCatchRaised error e')
    /\ trace w' = trace w ++ [OnError error]
    /\ lastWarmingTime (this w') = now_of w
    /\ lastSuccessfulWarmingTime (this w') = lastSuccessfulWarmingTime (this w)
    /\ isWarming (this w') = false.
Proof.
  intros Hbad. cbn zeta.
  assert (Hpiece : exists p w',
            try_region (after_status id r) w = (Return p, w')
            /\ (p = ExitCaught
                      match r with
                      | Value _ => Error "Failed to check warming prediction status"
                      | Raised e => e
                      end
                \/ exists e', p = ExitCatchRaised
                                   match r with
                                   | Value _ =>
                                       Error "Failed to check warming prediction status"
                                   | Raised e => e
                                   end e')
            /\ trace w' = trace w ++ [OnError
                      match r with
                      | Value _ => Error "Failed to check warming prediction status"
                      | Raised e => e
                      end]
            /\ lastWarmingTime (this w') = now_of w
            /\ lastSuccessfulWarmingTime (this w') = lastSuccessfulWarmingTime (this w)
            /\ isWarming (this w') = false).
  { destruct r as [resp|e]; unfold_try; simpl; [rewrite Hbad; simpl|].
    - destruct (onWarmingError (config (this w))
                  (Error "Failed to check warming prediction status")) eqn:Hh;
        eexists _, _; (split; [reflexivity|]); repeat split; eauto.
    - destruct (onWarmingError (config (this w)) e) eqn:Hh;
        eexists _, _; (split; [reflexivity|]); repeat split; eauto. }
  destruct Hpiece as (p & w' & Hrun & Hrest).
  exists (try_region (after_status id r)), p, w'.
  split; [reflexivity|]. split; [exact Hrun|exact Hrest].
Qed.

Lemma status_request_fails_witness :
  ok response_500 = false
  /\ exists f p w',
       resume (AwaitStatus "p1") (GotResponse (Value response_500)) = Some f
       /\ f w_ready = (Return p, w')
       /\ lastWarmingTime (this w') = now_of w_ready.
Proof.
  split; [reflexivity|].
  destruct (status_request_fails w_ready "p1" (Value response_500) eq_refl)
    as (f & p & w' & Hf & Hrun & _ & _ & Hl & _).
  exists f, p, w'. repeat split; assumption.
Defined.

(** ** One call at a time *)

Lemma piece_inflight k i f w :
  resume k i = Some f -> inflight (snd (f w)) = inflight w.
Proof.
  intros Hr.
  destruct k, i; simpl in Hr; inversion Hr; subst; clear Hr;
    unfold_try; split_piece; reflexivity.
Qed.

Lemma warmReplicateAPI_inflight w :
  inflight (snd (warmReplicateAPI w)) = inflight w
  /\ match fst (warmReplicateAPI w) with
     | Suspend _ => isWarming (this (snd (warmReplicateAPI w))) = true
     | Return ExitGuard => this (snd (warmReplicateAPI w)) = this w
     | Return (ExitStartRaised _) =>
         isWarming (this (snd (warmReplicateAPI w))) = true
     | Return _ => isWarming (this (snd (warmReplicateAPI w))) = false
     end.
Proof.
  unfold warmReplicateAPI. simpl.
  destruct (isWarming (this w)); simpl; [split; reflexivity|].
  unfold_try. split_piece; split; reflexivity.
Qed.








(** ** What a call can be rejected with *)

Lemma piece_rejection k i f w :
  resume k i = Some f ->
  match f w with
  | (Return p, _) => raised_by_hook (config (this w)) p
  | (Suspend _, _) => True
  end.
Proof.
  intros Hr.
  destruct k, i; simpl in Hr; inversion Hr; subst; clear Hr;
    unfold_try; split_piece; simpl; auto.
Qed.

Lemma drive_rejection ws : forall k w p w',
  drive ws (Suspend k, w) = Some (p, w') ->
  raised_by_hook (config (this w)) p.
Proof.
  induction ws as [|i ws IH]; intros k w p w' Hd; simpl in Hd; [discriminate|].
  destruct (resume k i) as [f|] eqn:Hr; [|discriminate].
  pose proof (piece_rejection k i f w Hr) as Hrej.
  pose proof (resume_spec k i f w Hr) as Hspec.
  destruct (f w) as [[k1|p1] w1].
  - destruct Hspec as (Hthis & _). rewrite <- Hthis. eapply IH, Hd.
  - rewrite drive_return in Hd. injection Hd as <- <-. exact Hrej.
Qed.

(** X12. The promise of [warmReplicateAPI] is rejected only with what the
    start hook or the error hook raised.  A failure of the canvas, of a
    request, of a body or of the completion hook is handed to the error
    hook and the call then ends normally; so with hooks that do not raise,
    no call is ever rejected. *)
Theorem rejected_only_by_hooks (ws : list wake) (w : world) (p : exit_path) (w' : world) :
  run ws w = Some (p, w') ->
  raised_by_hook (config (this w)) p
  /\ (onWarmingStart (config (this w)) = Value tt ->
      (forall error, onWarmingError (config (this w)) error = Value tt) ->
      rejection p = None).
Proof.
  intros Hrun.
  assert (Hhook : raised_by_hook (config (this w)) p).
  { unfold run in Hrun.
    pose proof (warmReplicateAPI_spec w) as Hspec.
    destruct (warmReplicateAPI w) as [[k|p0] w0] eqn:Hwarm.
    - destruct Hspec as (_ & (Hcfg & _) & _).
      rewrite <- Hcfg. eapply drive_rejection, Hrun.
    - rewrite drive_return in Hrun. injection Hrun as <- <-.
      revert Hwarm. unfold warmReplicateAPI. simpl.
      destruct (isWarming (this w)); [intros [= <- _]; exact I|].
      unfold_try. split_piece; intros [= <- _]; simpl; auto. }
  split; [exact Hhook|].
  intros Hstart Herror. destruct p; simpl in *; try reflexivity.
  - rewrite Hstart in Hhook. destruct e; discriminate.
  - rewrite Herror in Hhook. discriminate.
Qed.

Lemma rejected_only_by_hooks_witness :
  run answers_succeeded w_complete_hook_raises
  = Some (ExitCaught (Error "hook failed"),
          world_after answers_succeeded w_complete_hook_raises)
  /\ rejection (ExitCaught (Error "hook failed")) = None.
Proof.
  assert (Hrun : run answers_succeeded w_complete_hook_raises
                 = Some (ExitCaught (Error "hook failed"),
                         world_after answers_succeeded w_complete_hook_raises))
    by (vm_compute; reflexivity).
  split; [exact Hrun|].
  apply (proj2 (rejected_only_by_hooks _ _ _ _ Hrun)).
  - reflexivity.
  - intros error. reflexivity.
Defined.

(** ** Freezing while a call is in flight *)

(** X13. [freezeWarming] does not outlast a warm call that is in flight:
    when that call reaches any of its exits afterwards, its [finally]
    lowers [isWarming], and the next trigger is no longer dropped. *)
Theorem freeze_ends_with_call_in_flight
    (w : world) (k : susp) (i : wake) (f : world -> progress * world)
    (p : exit_path) (w' : world) :
  inflight w = [k] ->
  resume k i = Some f ->
  f (set_inflight [] (freezeWarming w)) = (Return p, w') ->
  isWarming (this (freezeWarming w)) = true
  /\ step (freezeWarming w) w'
  /\ isWarming (this w') = false
  /\ triggerWarmCall w' <> w'.
Proof.
  intros Hfl Hr Hf. split; [reflexivity|].
  assert (Hstep : step (freezeWarming w) w').
  { pose proof (step_resume (freezeWarming w) [] k [] i f Hfl Hr) as Hs.
    simpl in Hs. rewrite Hf in Hs. exact Hs. }
  split; [exact Hstep|].
  pose proof (resume_spec k i f (set_inflight [] (freezeWarming w)) Hr) as Hspec.
  rewrite Hf in Hspec. destruct Hspec as (Hdown & _).
  split; [exact Hdown|].
  intros Heq. rewrite (trigger_idle w' Hdown) in Heq. cbn zeta in Heq.
  destruct (0 <? remaining w').
  - apply (f_equal reads) in Heq. simpl in Heq. lia.
  - assert (Hidle : isWarming (this (set_reads (S (reads w'))
                       (set_timers (cancelled w') (next_handle w') w'))) = false)
      by exact Hdown.
    destruct (call_warmReplicateAPI_fired _ Hidle) as (rest & Ht & _).
    rewrite Heq in Ht. simpl in Ht.
    apply (f_equal (@length event)) in Ht. rewrite length_app in Ht. simpl in Ht. lia.
Qed.

Lemma freeze_ends_with_call_in_flight_witness :
  inflight (triggerWarmCall w_ready) = [AwaitCreate]
  /\ isWarming
       (this (snd (try_region (after_create (Value response_500))
                     (set_inflight [] (freezeWarming (triggerWarmCall w_ready))))))
     = false.
Proof.
  assert (Hfl : inflight (triggerWarmCall w_ready) = [AwaitCreate])
    by (vm_compute; reflexivity).
  assert (Hf : try_region (after_create (Value response_500))
                 (set_inflight [] (freezeWarming (triggerWarmCall w_ready)))
               = (Return ExitNotOk,
                  snd (try_region (after_create (Value response_500))
                         (set_inflight [] (freezeWarming (triggerWarmCall w_ready))))))
    by (vm_compute; reflexivity).
  split; [exact Hfl|].
  exact (proj1 (proj2 (proj2
           (freeze_ends_with_call_in_flight (triggerWarmCall w_ready) AwaitCreate
              (GotResponse (Value response_500)) _ ExitNotOk _ Hfl eq_refl Hf)))).
Defined.

(** ** A new object *)

(** X14. A newly constructed object has no cooldown behind it:
    [lastSuccessfulWarmingTime] starts at 0, so its first trigger fires
    the executor at once whenever the clock reads at least
    [cooldownPeriod], and at an earlier reading schedules one delayed fire
    for the difference. *)
Theorem first_trigger (options : Options) (clk : nat -> Z) (cv : outcome string) :
  let w := boot options clk cv in
  (cooldownPeriod (config (this w)) <= clk 0%nat ->
   fired w (triggerWarmCall w) /\ timers (triggerWarmCall w) = ∅)
  /\ (clk 0%nat < cooldownPeriod (config (this w)) ->
      trace (triggerWarmCall w) = []
      /\ warmingTimer (this (triggerWarmCall w)) = Some 1%positive
      /\ timers (triggerWarmCall w)
         = {[ 1%positive := cooldownPeriod (config (this w)) - clk 0%nat ]}).
Proof.
  cbn zeta. set (w := boot options clk cv).
  assert (Hidle : isWarming (this w) = false) by reflexivity.
  destruct (idle_trigger_branches w Hidle (boot_tidy options clk cv)) as [Himm Hdel].
  assert (Hrem : remaining w = Z.max 0 (cooldownPeriod (config (this w)) - clk 0%nat)).
  { unfold remaining, now_of. simpl. f_equal. lia. }
  split.
  - intros Hle. apply Himm. lia.
  - intros Hlt. destruct (Hdel ltac:(lia)) as [Hwt Htm].
    destruct (trigger_delayed w Hidle ltac:(lia)) as (Htr & _).
    split; [exact Htr|]. split; [exact Hwt|].
    rewrite Htm, Hrem. f_equal. 
    replace (Z.max 0 (cooldownPeriod (config (this w)) - clk 0%nat))
      with (cooldownPeriod (config (this w)) - clk 0%nat) by lia.
    reflexivity.
Qed.

Lemma first_trigger_witness :
  cooldownPeriod (config (this w_ready)) <= clock w_ready 0%nat
  /\ fired w_ready (triggerWarmCall w_ready).
Proof.
  assert (H : cooldownPeriod (config (this w_ready)) <= clock w_ready 0%nat)
    by (vm_compute; discriminate).
  split; [exact H|].
  exact (proj1 (proj1 (first_trigger default_options
                         (clock_at t_0 [0; 1; 2; 3]) (Value data_url)) H)).
Defined.

(** ** What a call leaves alone *)

Lemma drive_same_timers ws : forall k w p w',
  drive ws (Suspend k, w) = Some (p, w') ->
  same_timers w w' /\ inflight w' = inflight w.
Proof.
  induction ws as [|i ws IH]; intros k w p w' Hd; simpl in Hd; [discriminate|].
  destruct (resume k i) as [f|] eqn:Hr; [|discriminate].
  pose proof (resume_same_timers k i f w Hr) as (H1 & H2 & H3).
  pose proof (piece_inflight k i f w Hr) as Hfl.
  destruct (f w) as [[k1|p1] w1]; simpl in *.
  - destruct (IH k1 w1 p w' Hd) as ((H1' & H2' & H3') & Hfl').
    unfold same_timers. rewrite H1', H2', H3', Hfl'. repeat split; assumption.
  - rewrite drive_return in Hd. injection Hd as <- <-.
    repeat split; assumption.
Qed.

(** X15. From entry to exit a call of [warmReplicateAPI] never schedules
    or cancels a delayed fire: the timeout table, the handle counter and
    [warmingTimer] are after the call what they were before it, on every
    exit path, and so is the configuration.  A delayed fire pending when
    the call starts is still pending when it ends. *)
Theorem run_leaves_timers (ws : list wake) (w : world) (p : exit_path) (w' : world) :
  run ws w = Some (p, w') ->
  timers w' = timers w
  /\ next_handle w' = next_handle w
  /\ warmingTimer (this w') = warmingTimer (this w)
  /\ config (this w') = config (this w)
  /\ inflight w' = inflight w
  /\ clock w' = clock w.
Proof.
  unfold run. intros Hd.
  pose proof (warmReplicateAPI_same_timers w) as (H1 & H2 & H3).
  pose proof (warmReplicateAPI_inflight w) as [Hfl _].
  assert (Hcfg : config (this w') = config (this w) /\ clock w' = clock w).
  { pose proof (run_spec ws w p w' Hd) as Hspec.
    destruct p; try (destruct Hspec as (_ & _ & Hc & _ & Hk & _); split; assumption).
    - destruct Hspec as [_ ->]. split; reflexivity.
    - destruct Hspec as (_ & _ & Hthis). rewrite Hthis. split; [reflexivity|].
      clear - Hd. unfold warmReplicateAPI in Hd. simpl in Hd.
      destruct (isWarming (this w)); simpl in Hd.
      + rewrite drive_return in Hd. discriminate.
      + revert Hd. unfold_try. split_piece; rewrite ?drive_return;
          intros Hd; try discriminate; try (injection Hd as <- <-; reflexivity).
        all: pose proof (drive_spec ws _ _ _ _ _ ltac:(repeat split) Hd)
               as (_ & _ & _ & _ & []). }
  destruct Hcfg as [Hcfg Hclk].
  destruct (warmReplicateAPI w) as [[k|p0] w0]; simpl in *.
  - destruct (drive_same_timers ws k w0 p w' Hd) as ((H1' & H2' & H3') & Hfl').
    rewrite H1', H2', H3', Hfl'. repeat split; assumption.
  - rewrite drive_return in Hd. injection Hd as <- <-. repeat split; assumption.
Qed.

Lemma run_leaves_timers_witness :
  run answers_succeeded (triggerWarmCall w_cooling)
  = Some (ExitSucceeded, world_after answers_succeeded (triggerWarmCall w_cooling))
  /\ timers (triggerWarmCall w_cooling) !! 1%positive = Some 7000
  /\ timers (world_after answers_succeeded (triggerWarmCall w_cooling))
     = timers (triggerWarmCall w_cooling).
Proof.
  assert (Hrun : run answers_succeeded (triggerWarmCall w_cooling)
                 = Some (ExitSucceeded,
                         world_after answers_succeeded (triggerWarmCall w_cooling)))
    by (vm_compute; reflexivity).
  split; [exact Hrun|]. split; [vm_compute; reflexivity|].
  exact (proj1 (run_leaves_timers _ _ _ _ Hrun)).
Defined.
